(** * RPiPlay: the AirPlay server entry point ([airplay_server.cpp])

    A shallow embedding of the session-lifecycle code of RPiPlay:
    command-line parsing, [find_mac] and hardware-address resolution,
    [start_server], [stop_server], the callbacks handed to the engine, the
    signal handler and the run loop of [main].

    External collaborators (the protocol engine [raop], the service
    advertiser [dnssd], the renderers, the logger, the C++ standard library)
    are not part of this translation unit.  Their calls are recorded as
    events in a trace and their results are read from an environment record;
    [std::stol] and [std::string::substr] are modelled after the C++
    standard. *)

From Stdlib Require Import ZArith List String Ascii Bool Arith Lia.
Import ListNotations.

Local Open Scope string_scope.
Local Open Scope Z_scope.

(** ** Results of code that may throw *)

Inductive exn : Type :=
| invalid_argument
| out_of_range.

(** [Returns a]: normal completion; [Throws e]: a C++ exception propagates;
    [OutOfFuel]: the bound given to a loop model was too small (shown below
    never to happen for the bounds the model uses). *)
Inductive outcome (A : Type) : Type :=
| Returns (a : A)
| Throws (e : exn)
| OutOfFuel.

Arguments Returns {A} a.
Arguments Throws {A} e.
Arguments OutOfFuel {A}.

Definition obind {A B : Type} (m : outcome A) (k : A -> outcome B) : outcome B :=
  match m with
  | Returns a => k a
  | Throws e => Throws e
  | OutOfFuel => OutOfFuel
  end.

Declare Scope outcome_scope.
Delimit Scope outcome_scope with outcome.
Notation "x <-- m ;; k" := (obind m (fun x => k))
  (at level 61, m at next level, right associativity) : outcome_scope.

(** ** The part of the C++ standard library the file uses *)

Module Std.

(** [isspace] in the "C" locale: space, and the controls \t \n \v \f \r. *)
Definition isspace (c : ascii) : bool :=
  let n := Z.of_nat (nat_of_ascii c) in
  (n =? 32) || ((9 <=? n) && (n <=? 13)).

(** Value of an alphanumeric character as a digit (any base up to 36). *)
Definition alnum_value (c : ascii) : option Z :=
  let n := Z.of_nat (nat_of_ascii c) in
  if (48 <=? n) && (n <=? 57) then Some (n - 48)
  else if (97 <=? n) && (n <=? 122) then Some (n - 87)
  else if (65 <=? n) && (n <=? 90) then Some (n - 55)
  else None.

Definition digit_of (base : Z) (c : ascii) : option Z :=
  match alnum_value c with
  | Some d => if d <? base then Some d else None
  | None => None
  end.

Fixpoint skip_space (s : string) : string :=
  match s with
  | String c r => if isspace c then skip_space r else s
  | EmptyString => s
  end.

(** An optional sign. *)
Definition take_sign (s : string) : bool * string :=
  match s with
  | String "-" r => (true, r)
  | String "+" r => (false, r)
  | _ => (false, s)
  end.

(** In base 16 a leading "0x" or "0X" is skipped when a hexadecimal digit
    follows it; otherwise the "0" alone is the subject sequence. *)
Definition strip_hex_prefix (base : Z) (s : string) : string :=
  match s with
  | String "0" (String x (String d r)) =>
      if (base =? 16) && (Ascii.eqb x "x" || Ascii.eqb x "X")
      then match digit_of base d with
           | Some _ => String d r
           | None => s
           end
      else s
  | _ => s
  end.

Fixpoint scan_digits_acc (base : Z) (s : string) (acc : Z) : Z :=
  match s with
  | String c r =>
      match digit_of base c with
      | Some d => scan_digits_acc base r (acc * base + d)
      | None => acc
      end
  | EmptyString => acc
  end.

(** The longest run of digits at the head of [s]; [None] when there is
    no digit at all (no conversion can be performed). *)
Definition scan_digits (base : Z) (s : string) : option Z :=
  match s with
  | String c r =>
      match digit_of base c with
      | Some d => Some (scan_digits_acc base r d)
      | None => None
      end
  | EmptyString => None
  end.

Section Long.

(** Width of [long] on the target: 32 on a 32-bit Raspberry Pi OS, 64 on
    LP64 systems.  The C standard guarantees at least 32. *)
Variable long_bits : Z.

Definition LONG_MAX : Z := 2 ^ (long_bits - 1) - 1.
Definition LONG_MIN : Z := - 2 ^ (long_bits - 1).

(** [std::stol(str, NULL, base)] for an explicit base between 2 and 36:
    skips white space, reads a sign, the base-16 prefix and the longest run
    of digits, and ignores what follows.  It throws [std::invalid_argument]
    when there is no digit and [std::out_of_range] when the value does not
    fit a [long].  The position argument is [NULL] at the only call site, so
    no end index is stored. *)
Definition stol (str : string) (base : Z) : outcome Z :=
  let (neg, s1) := take_sign (skip_space str) in
  match scan_digits base (strip_hex_prefix base s1) with
  | None => Throws invalid_argument
  | Some mag =>
      let v := if neg then - mag else mag in
      if (LONG_MIN <=? v) && (v <=? LONG_MAX) then Returns v
      else Throws out_of_range
  end.

End Long.

Fixpoint drop (n : nat) (s : string) : string :=
  match n, s with
  | O, _ => s
  | S n', String _ r => drop n' r
  | S _, EmptyString => EmptyString
  end.

(** [str.substr(pos)]: the suffix from [pos]; throws [std::out_of_range]
    when [pos > str.size()]. *)
Definition substr (str : string) (pos : nat) : outcome string :=
  if (String.length str <? pos)%nat then Throws out_of_range
  else Returns (drop pos str).

End Std.

(** ** Data of the program *)

(** A [char] is kept as its bit pattern, a number below 256; whether plain
    [char] is signed on the target changes how the pattern reads, not the
    pattern.  [(char) v] keeps the low eight bits of [v]. *)
Definition char : Type := Z.

Definition to_char (v : Z) : char := Z.land v 255.

(** [DEFAULT_HW_ADDRESS] *)
Definition DEFAULT_HW_ADDRESS : list char := [72; 93; 96; 124; 238; 34].

(** ** [parse_hw_addr] *)

Section ParseHwAddr.

Variable long_bits : Z.

Local Open Scope outcome_scope.

(** The [for] loop of [parse_hw_addr]; [i] is the loop variable, [hw_addr]
    the vector passed by reference.  One unit of [fuel] per test of the
    loop condition. *)
Fixpoint parse_hw_addr_loop (fuel : nat) (str : string) (i : nat)
    (hw_addr : list char) : outcome (list char) :=
  match fuel with
  | O => OutOfFuel
  | S fuel' =>
      if (i <? String.length str)%nat then
        sub <-- Std.substr str i ;;
        v <-- Std.stol long_bits sub 16 ;;
        parse_hw_addr_loop fuel' str (i + 3) (hw_addr ++ [to_char v])
      else Returns hw_addr
  end.

(** [parse_hw_addr(str, hw_addr)]: the result is the vector after the call
    (the function's own return value is always 0). *)
Definition parse_hw_addr (str : string) (hw_addr : list char)
    : outcome (list char) :=
  parse_hw_addr_loop (S (String.length str)) str 0 hw_addr.

(** Lines 135-139 of [main]: [mac_address] is what [find_mac] returned. *)
Definition resolve_hw_addr (mac_address : string) : outcome (list char) :=
  let server_hw_addr := DEFAULT_HW_ADDRESS in
  if String.eqb mac_address "" then Returns server_hw_addr
  else parse_hw_addr mac_address [].

End ParseHwAddr.

(** ** Configuration and command-line parsing *)

(** [audio_device_t] of [renderers/audio_renderer.h]; the source names
    these three values. *)
Inductive audio_device_t : Type :=
| AUDIO_DEVICE_HDMI
| AUDIO_DEVICE_ANALOG
| AUDIO_DEVICE_NONE.

Definition audio_device_eqb (a b : audio_device_t) : bool :=
  match a, b with
  | AUDIO_DEVICE_HDMI, AUDIO_DEVICE_HDMI => true
  | AUDIO_DEVICE_ANALOG, AUDIO_DEVICE_ANALOG => true
  | AUDIO_DEVICE_NONE, AUDIO_DEVICE_NONE => true
  | _, _ => false
  end.

Definition DEFAULT_NAME : string := "RPiPlay".
Definition DEFAULT_SHOW_BACKGROUND : bool := true.
Definition DEFAULT_AUDIO_DEVICE : audio_device_t := AUDIO_DEVICE_HDMI.
Definition DEFAULT_LOW_LATENCY : bool := false.

(** The locals of [main] that the options set. *)
Record options : Type := mkOptions {
  show_background : bool;
  server_name : string;
  audio_device : audio_device_t;
  low_latency : bool
}.

Definition default_options : options :=
  {| show_background := DEFAULT_SHOW_BACKGROUND;
     server_name := DEFAULT_NAME;
     audio_device := DEFAULT_AUDIO_DEVICE;
     low_latency := DEFAULT_LOW_LATENCY |}.

Definition set_show_background (b : bool) (o : options) : options :=
  mkOptions b (server_name o) (audio_device o) (low_latency o).
Definition set_server_name (n : string) (o : options) : options :=
  mkOptions (show_background o) n (audio_device o) (low_latency o).
Definition set_audio_device (a : audio_device_t) (o : options) : options :=
  mkOptions (show_background o) (server_name o) a (low_latency o).
Definition set_low_latency (b : bool) (o : options) : options :=
  mkOptions (show_background o) (server_name o) (audio_device o) b.

(** What one iteration of the argument loop does. *)
Inductive arg_step : Type :=
| Next (i : nat) (o : options)       (* the loop goes on at index [i] *)
| PrintInfoExit (name : string) (status : Z).  (* print_info(name); exit(status) *)

(** How the argument loop ends. *)
Inductive parsed : Type :=
| Parsed (o : options)
| Exited (name : string) (status : Z).

Section ArgumentLoop.

Variable argv : list string.

Definition argc : nat := List.length argv.

Definition arg_at (i : nat) : string := nth i argv "".

Local Open Scope nat_scope.

(** The body of the [for] loop at index [i], followed by its [i++]. *)
Definition parse_arg (i : nat) (o : options) : arg_step :=
  let arg := arg_at i in
  if String.eqb arg "-n" then
    if i =? argc - 1 then Next (i + 1) o
    else Next (i + 1 + 1) (set_server_name (arg_at (i + 1)) o)
  else if String.eqb arg "-b" then
    Next (i + 1) (set_show_background (negb (show_background o)) o)
  else if String.eqb arg "-a" then
    if i =? argc - 1 then Next (i + 1) o
    else
      let audio_device_name := arg_at (i + 1) in
      Next (i + 1 + 1)
        (set_audio_device
           (if String.eqb audio_device_name "hdmi" then AUDIO_DEVICE_HDMI
            else if String.eqb audio_device_name "analog" then AUDIO_DEVICE_ANALOG
            else AUDIO_DEVICE_NONE) o)
  else if String.eqb arg "-l" then
    Next (i + 1) (set_low_latency (negb (low_latency o)) o)
  else if String.eqb arg "-h" || String.eqb arg "-v" then
    PrintInfoExit (arg_at 0) 0%Z
  else Next (i + 1) o.

Fixpoint parse_args_loop (fuel : nat) (i : nat) (o : options) : outcome parsed :=
  match fuel with
  | O => OutOfFuel
  | S fuel' =>
      if i <? argc then
        match parse_arg i o with
        | Next i' o' => parse_args_loop fuel' i' o'
        | PrintInfoExit name status => Returns (Exited name status)
        end
      else Returns (Parsed o)
  end.

(** The loop from index [i] with the locals [o], with a bound that is
    enough for every index. *)
Definition parse_args_from (i : nat) (o : options) : outcome parsed :=
  parse_args_loop (S argc) i o.

(** Lines 107-133 of [main]. *)
Definition parse_args : outcome parsed :=
  parse_args_from 1 default_options.

(** The loop head is reached with index [i] and locals [o]. *)
Inductive reaches : nat -> options -> Prop :=
| reaches_first : reaches 1 default_options
| reaches_next i o i' o' :
    reaches i o -> i < argc -> parse_arg i o = Next i' o' -> reaches i' o'.

End ArgumentLoop.

(** An argument that is none of the six options. *)
Definition is_option (arg : string) : bool :=
  String.eqb arg "-n" || String.eqb arg "-b" || String.eqb arg "-a"
  || String.eqb arg "-l" || String.eqb arg "-h" || String.eqb arg "-v".

(** ** Process state and calls to the collaborators *)

(** A pointer to an opaque object of a collaborator; [NULL] is 0. *)
Definition ptr : Type := Z.
Definition NULL : ptr := 0.
Definition is_null (p : ptr) : bool := p =? NULL.

(** The functions of this file that are handed out as callbacks. *)
Inductive callback : Type :=
| cb_audio_process
| cb_video_process
| cb_audio_set_volume
| cb_log_callback.

(** [raop_callbacks_t] after the [memset]: the fields the source assigns;
    every other field is zero. *)
Record raop_callbacks_t : Type := mkCallbacks {
  cbs_audio_process : option callback;
  cbs_video_process : option callback;
  cbs_audio_set_volume : option callback
}.

Inductive severity : Type := LOGD | LOGI | LOGW | LOGE.

Inductive logger_level : Type :=
| LOGGER_ERR | LOGGER_WARNING | LOGGER_INFO | LOGGER_DEBUG.

Inductive raop_log_level : Type := RAOP_LOG_DEBUG.

(** One constructor per external function the file calls, with the values
    of the arguments at the call site. *)
Inductive event : Type :=
| ev_log (s : severity) (fmt : string) (args : list Z)
| ev_raop_init (max_clients : Z) (cbs : raop_callbacks_t)
| ev_raop_set_log_callback (r : ptr) (cb : callback)
| ev_raop_set_log_level (r : ptr) (l : raop_log_level)
| ev_logger_init
| ev_logger_set_callback (lg : ptr) (cb : callback)
| ev_logger_set_level (lg : ptr) (l : logger_level)
| ev_logger_log (lg : ptr) (l : logger_level) (msg : string)
| ev_video_renderer_init (lg : ptr) (background low_latency : bool)
| ev_audio_renderer_init (lg : ptr) (video : ptr) (dev : audio_device_t)
    (low_latency : bool)
| ev_video_renderer_start (v : ptr)
| ev_audio_renderer_start (a : ptr)
| ev_raop_start (r : ptr)
| ev_raop_set_port (r : ptr) (port : Z)
| ev_raop_get_port (r : ptr)
| ev_dnssd_init (name : string) (name_len : nat) (hw_addr : list char)
    (hw_addr_len : nat)
| ev_raop_set_dnssd (r : ptr) (d : ptr)
| ev_dnssd_register_raop (d : ptr) (port : Z)
| ev_dnssd_register_airplay (d : ptr) (port : Z)
| ev_raop_destroy (r : ptr)
| ev_dnssd_unregister_raop (d : ptr)
| ev_dnssd_unregister_airplay (d : ptr)
| ev_audio_renderer_destroy (a : ptr)
| ev_video_renderer_destroy (v : ptr)
| ev_sleep (seconds : Z).

(** The static variables of the file. *)
Record globals : Type := mkGlobals {
  running : bool;
  dnssd : ptr;
  raop : ptr;
  video_renderer : ptr;
  audio_renderer : ptr
}.

(** Their initial values. *)
Definition initial_globals : globals :=
  {| running := false; dnssd := NULL; raop := NULL;
     video_renderer := NULL; audio_renderer := NULL |}.

(** The globals and the calls made so far, oldest first. *)
Record world : Type := mkWorld {
  vars : globals;
  trace : list event
}.

Definition initial_world : world :=
  {| vars := initial_globals; trace := [] |}.

(** What the collaborators answer.  Each of these functions is called at
    most once by the program, so one value per function describes every
    behaviour of the collaborators. *)
Record env : Type := mkEnv {
  raop_init_result : ptr;
  logger_init_result : ptr;
  video_renderer_init_result : ptr;
  audio_renderer_init_result : ptr;
  raop_start_port : Z;          (* what raop_start leaves in *port *)
  raop_get_port_result : Z;
  dnssd_init_result : ptr;
  dnssd_init_error : Z          (* what dnssd_init leaves in *error *)
}.

(** ** A state monad over [world], with [return] statements *)

(** What a statement leaves: a value, or the value of a [return] that ends
    the enclosing function. *)
Inductive flow (A : Type) : Type :=
| Val (a : A)
| Return (z : Z).

Arguments Val {A} a.
Arguments Return {A} z.

Definition M (A : Type) : Type := world -> flow A * world.

Definition ret {A : Type} (a : A) : M A := fun w => (Val a, w).

Definition bind {A B : Type} (m : M A) (k : A -> M B) : M B :=
  fun w =>
    match m w with
    | (Val a, w') => k a w'
    | (Return z, w') => (Return z, w')
    end.

(** [return z;] *)
Definition return_ {A : Type} (z : Z) : M A := fun w => (Return z, w).

Declare Scope m_scope.
Delimit Scope m_scope with M.
Notation "x <- m ;; k" := (bind m (fun x => k))
  (at level 61, m at next level, right associativity) : m_scope.
Notation "m ;; k" := (bind m (fun _ => k))
  (at level 61, right associativity) : m_scope.

(** [if (c) { body }] with no [else]. *)
Definition when (c : bool) (body : M unit) : M unit :=
  if c then body else ret tt.

(** Calling a function whose body is [body]: the value it returns and the
    world it leaves. *)
Definition exec (body : M Z) (w : world) : Z * world :=
  match body w with
  | (Val z, w') => (z, w')
  | (Return z, w') => (z, w')
  end.

(** The same for a function that returns nothing. *)
Definition exec_void (body : M unit) (w : world) : world := snd (body w).

(** An external call: it is appended to the trace and answers [res]. *)
Definition call {A : Type} (e : event) (res : A) : M A :=
  fun w => (Val res, {| vars := vars w; trace := trace w ++ [e] |}).

Definition read {A : Type} (f : globals -> A) : M A :=
  fun w => (Val (f (vars w)), w).

Definition write (f : globals -> globals) : M unit :=
  fun w => (Val tt, {| vars := f (vars w); trace := trace w |}).

Definition set_running (b : bool) (g : globals) : globals :=
  mkGlobals b (dnssd g) (raop g) (video_renderer g) (audio_renderer g).
Definition set_dnssd (p : ptr) (g : globals) : globals :=
  mkGlobals (running g) p (raop g) (video_renderer g) (audio_renderer g).
Definition set_raop (p : ptr) (g : globals) : globals :=
  mkGlobals (running g) (dnssd g) p (video_renderer g) (audio_renderer g).
Definition set_video_renderer (p : ptr) (g : globals) : globals :=
  mkGlobals (running g) (dnssd g) (raop g) p (audio_renderer g).
Definition set_audio_renderer (p : ptr) (g : globals) : globals :=
  mkGlobals (running g) (dnssd g) (raop g) (video_renderer g) p.

Definition log (s : severity) (fmt : string) (args : list Z) : M unit :=
  call (ev_log s fmt args) tt.

(** ** Integer types *)

(** A value stored in an [unsigned short]. *)
Definition to_ushort (v : Z) : Z := v mod 65536.

(** A value of type [int] (32 bits, two's complement). *)
Definition to_int (v : Z) : Z := (v + 2147483648) mod 4294967296 - 2147483648.

(** [a + b] on [int] operands. *)
Definition int_add (a b : Z) : Z := to_int (a + b).

(** Modelled from the spec: the prototype of [dnssd_register_airplay],
    which [lib/dnssd.h] declares.  Its port parameter is an
    [unsigned short] (a port has 16 bits; the spec has the companion port
    wrap at 65535), so the [int] argument [port + 1] is converted to it. *)
Definition to_port_param (v : Z) : Z := to_ushort v.

(** [strlen]: the characters before the first NUL. *)
Fixpoint strlen (s : string) : nat :=
  match s with
  | EmptyString => O
  | String c r => if Ascii.eqb c zero then O else S (strlen r)
  end.

(** ** [start_server] and [stop_server] *)

Section Server.

Variable E : env.

Local Open Scope m_scope.

(** The body of [start_server]. *)
Definition start_server_body (hw_addr : list char) (name : string)
    (show_background : bool) (audio_device : audio_device_t)
    (low_latency : bool) : M Z :=
  let raop_cbs :=
    {| cbs_audio_process := Some cb_audio_process;
       cbs_video_process := Some cb_video_process;
       cbs_audio_set_volume := Some cb_audio_set_volume |} in
  r <- call (ev_raop_init 10 raop_cbs) (raop_init_result E) ;;
  write (set_raop r) ;;
  r <- read raop ;;
  (if is_null r then
     log LOGE "raop = NULL" [] ;;
     return_ (-1)
   else
     log LOGD "raop init success" []) ;;
  r <- read raop ;;
  call (ev_raop_set_log_callback r cb_log_callback) tt ;;
  r <- read raop ;;
  call (ev_raop_set_log_level r RAOP_LOG_DEBUG) tt ;;
  render_logger <- call ev_logger_init (logger_init_result E) ;;
  call (ev_logger_set_callback render_logger cb_log_callback) tt ;;
  call (ev_logger_set_level render_logger LOGGER_DEBUG) tt ;;
  when low_latency
    (call (ev_logger_log render_logger LOGGER_INFO "Using low-latency mode") tt) ;;
  v <- call (ev_video_renderer_init render_logger show_background low_latency)
            (video_renderer_init_result E) ;;
  write (set_video_renderer v) ;;
  v <- read video_renderer ;;
  when (is_null v)
    (log LOGE "Could not init video renderer" [] ;;
     return_ (-1)) ;;
  (if audio_device_eqb audio_device AUDIO_DEVICE_NONE then
     log LOGI "Audio disabled" []
   else
     v <- read video_renderer ;;
     a <- call (ev_audio_renderer_init render_logger v audio_device low_latency)
               (audio_renderer_init_result E) ;;
     write (set_audio_renderer a) ;;
     a <- read audio_renderer ;;
     when (is_null a)
       (log LOGE "Could not init audio renderer" [] ;;
        return_ (-1))) ;;
  v <- read video_renderer ;;
  when (negb (is_null v)) (call (ev_video_renderer_start v) tt) ;;
  a <- read audio_renderer ;;
  when (negb (is_null a)) (call (ev_audio_renderer_start a) tt) ;;
  let port := 0 in
  r <- read raop ;;
  port <- call (ev_raop_start r) (to_ushort (raop_start_port E)) ;;
  r <- read raop ;;
  call (ev_raop_set_port r port) tt ;;
  r <- read raop ;;
  p <- call (ev_raop_get_port r) (raop_get_port_result E) ;;
  log LOGD "raop port = % d" [p] ;;
  d <- call (ev_dnssd_init name (strlen name) hw_addr (List.length hw_addr))
            (dnssd_init_result E) ;;
  let error := dnssd_init_error E in
  write (set_dnssd d) ;;
  when (negb (error =? 0))
    (log LOGE "Could not initialize dnssd library!" [] ;;
     return_ (-2)) ;;
  r <- read raop ;;
  d <- read dnssd ;;
  call (ev_raop_set_dnssd r d) tt ;;
  d <- read dnssd ;;
  call (ev_dnssd_register_raop d port) tt ;;
  d <- read dnssd ;;
  call (ev_dnssd_register_airplay d (to_port_param (int_add port 1))) tt ;;
  return_ 0.

(** [start_server(hw_addr, name, show_background, audio_device,
    low_latency)] called in world [w]. *)
Definition start_server (hw_addr : list char) (name : string)
    (show_background : bool) (audio_device : audio_device_t)
    (low_latency : bool) (w : world) : Z * world :=
  exec (start_server_body hw_addr name show_background audio_device low_latency) w.

(** The body of [stop_server]. *)
Definition stop_server_body : M Z :=
  r <- read raop ;;
  call (ev_raop_destroy r) tt ;;
  d <- read dnssd ;;
  call (ev_dnssd_unregister_raop d) tt ;;
  d <- read dnssd ;;
  call (ev_dnssd_unregister_airplay d) tt ;;
  a <- read audio_renderer ;;
  call (ev_audio_renderer_destroy a) tt ;;
  v <- read video_renderer ;;
  call (ev_video_renderer_destroy v) tt ;;
  return_ 0.

(** [stop_server()] called in world [w]. *)
Definition stop_server (w : world) : Z * world := exec stop_server_body w.

End Server.

(** ** The signal handler *)

(** [SIGINT] and [SIGTERM] of [<signal.h>] (their values on Linux). *)
Definition SIGINT : Z := 2.
Definition SIGTERM : Z := 15.

(** [signal_handler(sig)] run in world [w]. *)
Definition signal_handler (sig : Z) (w : world) : world :=
  exec_void
    (if (sig =? SIGINT) || (sig =? SIGTERM) then write (set_running false)
     else ret tt) w.

(** ** Signals *)

(** What a signal does to the process.  [init_signals] installs
    [signal_handler] for [SIGINT] and [SIGTERM] and for nothing else, so
    every other signal takes its default action (signal(7), with the
    signal numbers of Linux). *)
Inductive disposition : Type :=
| Handled        (* [signal_handler] runs *)
| Terminates     (* the process is ended *)
| NoEffect.      (* the program's state is as before *)

(** [SIGCHLD], [SIGURG] and [SIGWINCH] are ignored by default. *)
Definition ignored_by_default (sig : Z) : bool :=
  (sig =? 17) || (sig =? 23) || (sig =? 28).

(** [SIGCONT], [SIGSTOP], [SIGTSTP], [SIGTTIN] and [SIGTTOU] suspend or
    resume the process; the program goes on from where it was. *)
Definition job_control (sig : Z) : bool := (18 <=? sig) && (sig <=? 22).

(** Every other signal from 1 to 64 ends the process by default, with or
    without a core dump; a number outside 1..64 is no signal. *)
Definition disposition_of (sig : Z) : disposition :=
  if (sig =? SIGINT) || (sig =? SIGTERM) then Handled
  else if (1 <=? sig) && (sig <=? 64) then
    if ignored_by_default sig || job_control sig then NoEffect else Terminates
  else NoEffect.

(** ** [main] from the call of [start_server] on, and signal delivery *)

(** The control points of [main] once the arguments are parsed and the
    hardware address is resolved. *)
Inductive pc : Type :=
| at_start_server (hw_addr : list char) (o : options)   (* line 141 *)
| at_set_running                                        (* line 145 *)
| at_loop_test                                          (* line 146 *)
| at_sleep                                              (* line 147 *)
| at_stopping                                           (* lines 150-151 *)
| returned (status : Z)
| killed (sig : Z).       (* ended by the default action of [sig] *)

Record process : Type := mkProcess {
  at_pc : pc;
  now : world
}.

(** [init_signals] runs before anything else, so from the first step on a
    signal may arrive between any two steps of [main]. *)
Inductive action : Type :=
| Tick                 (* [main] executes its next statement *)
| Signal (sig : Z).    (* the signal [sig] is delivered *)

Section Main.

Variable E : env.

(** One statement of [main]. *)
Definition main_step (p : process) : process :=
  match at_pc p with
  | at_start_server hw_addr o =>
      let (r, w) :=
        start_server E hw_addr (server_name o) (show_background o)
          (audio_device o) (low_latency o) (now p) in
      if negb (r =? 0) then mkProcess (returned 1) w
      else mkProcess at_set_running w
  | at_set_running =>
      mkProcess at_loop_test (exec_void (write (set_running true)) (now p))
  | at_loop_test =>
      if running (vars (now p)) then mkProcess at_sleep (now p)
      else mkProcess at_stopping (now p)
  | at_sleep =>
      mkProcess at_loop_test (exec_void (call (ev_sleep 1) tt) (now p))
  | at_stopping =>
      let w := exec_void (log LOGI "Stopping..." []) (now p) in
      let (_, w') := stop_server w in
      mkProcess (returned 0) w'
  | returned _ => p
  | killed _ => p
  end.

(** The signal [sig] arrives: the handler runs for [SIGINT] and [SIGTERM],
    the default action is taken for the others. *)
Definition deliver (sig : Z) (p : process) : process :=
  match at_pc p with
  | returned _ => p
  | killed _ => p
  | _ =>
      match disposition_of sig with
      | Handled => mkProcess (at_pc p) (signal_handler sig (now p))
      | Terminates => mkProcess (killed sig) (now p)
      | NoEffect => p
      end
  end.

Definition perform (a : action) (p : process) : process :=
  match a with
  | Tick => main_step p
  | Signal sig => deliver sig p
  end.

(** A schedule of statements and signals, performed from left to right. *)
Fixpoint run (sched : list action) (p : process) : process :=
  match sched with
  | [] => p
  | a :: rest => run rest (perform a p)
  end.

End Main.

(** [main(argc, argv)] up to the call of [start_server]: [mac_address] is
    what [find_mac] reads.  The result is the process about to call
    [start_server], or the exit status of [-h]/[-v]. *)
Definition main_entry (long_bits : Z) (argv : list string) (mac_address : string)
    : outcome process :=
  obind (parse_args argv) (fun r =>
    match r with
    | Exited _ status => Returns (mkProcess (returned status) initial_world)
    | Parsed o =>
        obind (resolve_hw_addr long_bits mac_address) (fun server_hw_addr =>
          Returns (mkProcess (at_start_server server_hw_addr o) initial_world))
    end).

(** [main] is inside its run loop. *)
Definition in_run_loop (p : process) : bool :=
  match at_pc p with
  | at_loop_test | at_sleep => true
  | _ => false
  end.

(** [main] is past the assignment [running = true]. *)
Definition past_start (p : process) : Prop :=
  match at_pc p with
  | at_start_server _ _ | at_set_running => False
  | _ => True
  end.

Definition is_termination_signal (sig : Z) : bool :=
  (sig =? SIGINT) || (sig =? SIGTERM).

(** ** Vocabulary of the properties *)

(** *** Hardware-address text *)

Definition is_hex (c : ascii) : bool :=
  match Std.digit_of 16 c with
  | Some _ => true
  | None => false
  end.

Definition hex_value (c : ascii) : Z :=
  match Std.digit_of 16 c with
  | Some d => d
  | None => 0
  end.

(** A pair of hexadecimal digits, its text and the byte it denotes. *)
Definition hex_pair : Type := (ascii * ascii)%type.

Definition is_hex_pair (p : hex_pair) : bool := is_hex (fst p) && is_hex (snd p).

Definition pair_text (p : hex_pair) : string :=
  String (fst p) (String (snd p) EmptyString).

Definition pair_value (p : hex_pair) : Z :=
  hex_value (fst p) * 16 + hex_value (snd p).

(** The delimited textual form: the pairs with [sep] between them. *)
Fixpoint delimited (sep : ascii) (ps : list hex_pair) : string :=
  match ps with
  | [] => EmptyString
  | p :: rest =>
      match rest with
      | [] => pair_text p
      | _ :: _ => pair_text p ++ String sep (delimited sep rest)
      end
  end.

(** What follows a run of digits: the end of the text or a character that
    is no hexadecimal digit. *)
Definition ends_digits (rest : string) : bool :=
  match rest with
  | EmptyString => true
  | String c _ => negb (is_hex c)
  end.

(** The number of loop iterations over a string of [n] characters. *)
Definition ceil_div3 (n : nat) : nat := ((n + 2) / 3)%nat.

(** *** Teardown and advertisement calls in a trace *)

Definition is_teardown (e : event) : bool :=
  match e with
  | ev_raop_destroy _ | ev_dnssd_unregister_raop _
  | ev_dnssd_unregister_airplay _ | ev_audio_renderer_destroy _
  | ev_video_renderer_destroy _ => true
  | _ => false
  end.

Definition destroys_raop (p : ptr) (e : event) : bool :=
  match e with ev_raop_destroy r => r =? p | _ => false end.
Definition destroys_video (p : ptr) (e : event) : bool :=
  match e with ev_video_renderer_destroy v => v =? p | _ => false end.
Definition destroys_audio (p : ptr) (e : event) : bool :=
  match e with ev_audio_renderer_destroy a => a =? p | _ => false end.

(** The handle [p] is absent, or its destroy call is in the trace. *)
Definition released (destroys : ptr -> event -> bool) (p : ptr)
    (t : list event) : bool :=
  is_null p || existsb (destroys p) t.

(** No live subsystem handle is left in the globals. *)
Definition no_live_handle (w : world) : bool :=
  released destroys_raop (raop (vars w)) (trace w)
  && released destroys_video (video_renderer (vars w)) (trace w)
  && released destroys_audio (audio_renderer (vars w)) (trace w).

Inductive service : Type := primary_service | companion_service.

(** The services a trace registers with the advertiser, in order. *)
Fixpoint advertised (t : list event) : list (service * Z) :=
  match t with
  | [] => []
  | ev_dnssd_register_raop _ port :: rest =>
      (primary_service, port) :: advertised rest
  | ev_dnssd_register_airplay _ port :: rest =>
      (companion_service, port) :: advertised rest
  | _ :: rest => advertised rest
  end.

(** The error messages a trace logs, in order. *)
Fixpoint errors_logged (t : list event) : list string :=
  match t with
  | [] => []
  | ev_log LOGE fmt _ :: rest => fmt :: errors_logged rest
  | _ :: rest => errors_logged rest
  end.

(** *** The ways [start_server] can fail *)

Inductive failure : Type :=
| EngineInitFailed
| VideoRendererInitFailed
| AudioRendererInitFailed
| DiscoveryInitFailed.

(** The collaborators' answers that make step [f] the first to fail. *)
Definition fails_at (E : env) (dev : audio_device_t) (f : failure) : bool :=
  match f with
  | EngineInitFailed => is_null (raop_init_result E)
  | VideoRendererInitFailed =>
      negb (is_null (raop_init_result E))
      && is_null (video_renderer_init_result E)
  | AudioRendererInitFailed =>
      negb (is_null (raop_init_result E))
      && negb (is_null (video_renderer_init_result E))
      && negb (audio_device_eqb dev AUDIO_DEVICE_NONE)
      && is_null (audio_renderer_init_result E)
  | DiscoveryInitFailed =>
      negb (is_null (raop_init_result E))
      && negb (is_null (video_renderer_init_result E))
      && (audio_device_eqb dev AUDIO_DEVICE_NONE
          || negb (is_null (audio_renderer_init_result E)))
      && negb (dnssd_init_error E =? 0)
  end.

(** The value [start_server] returns for each failure, and the message it
    logs at error severity. *)
Definition error_code (f : failure) : Z :=
  match f with
  | EngineInitFailed => -1
  | VideoRendererInitFailed => -1
  | AudioRendererInitFailed => -1
  | DiscoveryInitFailed => -2
  end.

Definition error_message (f : failure) : string :=
  match f with
  | EngineInitFailed => "raop = NULL"
  | VideoRendererInitFailed => "Could not init video renderer"
  | AudioRendererInitFailed => "Could not init audio renderer"
  | DiscoveryInitFailed => "Could not initialize dnssd library!"
  end.

(** *** Sample collaborators *)

(** Every collaborator succeeds; the engine binds port [port]. *)
Definition env_ok (port : Z) : env :=
  {| raop_init_result := 1; logger_init_result := 2;
     video_renderer_init_result := 3; audio_renderer_init_result := 4;
     raop_start_port := port; raop_get_port_result := port;
     dnssd_init_result := 5; dnssd_init_error := 0 |}.

Definition env_engine_fails : env :=
  mkEnv NULL 2 3 4 7000 7000 5 0.
Definition env_video_fails : env :=
  mkEnv 1 2 NULL 4 7000 7000 5 0.
Definition env_audio_fails : env :=
  mkEnv 1 2 3 NULL 7000 7000 5 0.
Definition env_discovery_fails : env :=
  mkEnv 1 2 3 4 7000 7000 NULL 1.

(** A world in which a session is running. *)
Definition world_running : world :=
  snd (start_server (env_ok 7000) DEFAULT_HW_ADDRESS DEFAULT_NAME
         true AUDIO_DEVICE_HDMI false initial_world).

(** The offsets at which the loop of [parse_hw_addr] converts: [count]
    offsets from [i] on, three characters apart. *)
Fixpoint offsets (i count : nat) : list nat :=
  match count with
  | O => []
  | S c => i :: offsets (i + 3) c
  end.

(** The conversion at offset [j] of [str] yields a number. *)
Definition converts (long_bits : Z) (str : string) (j : nat) : bool :=
  match Std.stol long_bits (Std.drop j str) 16 with
  | Returns _ => true
  | _ => false
  end.

(** Every conversion the loop performs on [str] yields a number. *)
Definition all_convert (long_bits : Z) (str : string) : bool :=
  forallb (converts long_bits str) (offsets 0 (ceil_div3 (String.length str))).

(** ** The rest of the file: [find_mac] and the callbacks *)

(** *** Reading the interface address *)

(** The two files [find_mac] may read: their contents, or [None] when the
    file cannot be opened. *)
Record netfs : Type := mkNetfs {
  eth0_address : option string;   (* /sys/class/net/eth0/address *)
  wlan0_address : option string   (* /sys/class/net/wlan0/address *)
}.

(** The characters of [s] up to the first white space. *)
Fixpoint take_token (s : string) : string :=
  match s with
  | EmptyString => EmptyString
  | String c r => if Std.isspace c then EmptyString else String c (take_token r)
  end.

(** [stream >> str] on a fresh stream over [content]: leading white space
    is skipped and the characters up to the next white space are stored;
    when there is none the string is left empty. *)
Definition read_token (content : string) : string :=
  take_token (Std.skip_space content).

(** [find_mac] *)
Definition find_mac (fs : netfs) : string :=
  match eth0_address fs with
  | Some content => read_token content
  | None =>
      match wlan0_address fs with
      | Some content => read_token content
      | None => EmptyString
      end
  end.

(** [main] up to the call of [start_server], reading the address files. *)
Definition main_startup (long_bits : Z) (argv : list string) (fs : netfs)
    : outcome process :=
  main_entry long_bits argv (find_mac fs).

(** *** The callbacks handed to the engine *)

(** The fields of [aac_decode_struct] and [h264_decode_struct] the
    callbacks read. *)
Record aac_decode_struct : Type := mkAac {
  aac_data : ptr;
  aac_data_len : Z;
  aac_pts : Z
}.

Record h264_decode_struct : Type := mkH264 {
  h264_data : ptr;
  h264_data_len : Z;
  h264_pts : Z;
  h264_frame_type : Z
}.

(** The calls the callbacks make.  A volume is a [float] that is passed
    on as it is; it is kept as an opaque number. *)
Inductive render_call : Type :=
| rc_audio_renderer_render_buffer (a : ptr) (ntp : ptr) (data : ptr)
    (data_len : Z) (pts : Z)
| rc_video_renderer_render_buffer (v : ptr) (ntp : ptr) (data : ptr)
    (data_len : Z) (pts : Z) (frame_type : Z)
| rc_audio_renderer_set_volume (a : ptr) (volume : Z)
| rc_log (s : severity) (fmt : string) (msg : string).

(** The callbacks read the globals and change nothing: each is given by
    the calls it makes. *)

(** [audio_process] *)
Definition audio_process (g : globals) (ntp : ptr) (data : aac_decode_struct)
    : list render_call :=
  if negb (is_null (audio_renderer g)) then
    [rc_audio_renderer_render_buffer (audio_renderer g) ntp
       (aac_data data) (aac_data_len data) (aac_pts data)]
  else [].

(** [video_process] *)
Definition video_process (g : globals) (ntp : ptr) (data : h264_decode_struct)
    : list render_call :=
  [rc_video_renderer_render_buffer (video_renderer g) ntp
     (h264_data data) (h264_data_len data) (h264_pts data)
     (h264_frame_type data)].

(** [audio_set_volume] *)
Definition audio_set_volume (g : globals) (volume : Z) : list render_call :=
  if negb (is_null (audio_renderer g)) then
    [rc_audio_renderer_set_volume (audio_renderer g) volume]
  else [].

Section LogCallback.

(** The numbers of the enumerators [LOGGER_ERR] ... [LOGGER_DEBUG], which
    [lib/logger.h] defines. *)
Variable level_value : logger_level -> Z.

(** [log_callback]: the [switch] over [level]. *)
Definition log_callback (level : Z) (msg : string) : list render_call :=
  if level =? level_value LOGGER_DEBUG then [rc_log LOGD "%s" msg]
  else if level =? level_value LOGGER_WARNING then [rc_log LOGW "%s" msg]
  else if level =? level_value LOGGER_INFO then [rc_log LOGI "%s" msg]
  else if level =? level_value LOGGER_ERR then [rc_log LOGE "%s" msg]
  else [].

End LogCallback.

(** The severity each level is logged at. *)
Definition severity_of (l : logger_level) : severity :=
  match l with
  | LOGGER_DEBUG => LOGD
  | LOGGER_WARNING => LOGW
  | LOGGER_INFO => LOGI
  | LOGGER_ERR => LOGE
  end.

(** The numbering of the levels after syslog. *)
Definition syslog_level (l : logger_level) : Z :=
  match l with
  | LOGGER_ERR => 3
  | LOGGER_WARNING => 4
  | LOGGER_INFO => 6
  | LOGGER_DEBUG => 7
  end.

(** *** More vocabulary *)

(** A reference description of the argument loop, by recursion on the
    arguments that are left: [name] is [argv[0]], [args] the arguments
    from the loop index on. *)
Fixpoint parse_list (name : string) (args : list string) (o : options) : parsed :=
  match args with
  | [] => Parsed o
  | arg :: rest =>
      if String.eqb arg "-n" then
        match rest with
        | [] => Parsed o
        | v :: rest' => parse_list name rest' (set_server_name v o)
        end
      else if String.eqb arg "-b" then
        parse_list name rest (set_show_background (negb (show_background o)) o)
      else if String.eqb arg "-a" then
        match rest with
        | [] => Parsed o
        | v :: rest' =>
            parse_list name rest'
              (set_audio_device
                 (if String.eqb v "hdmi" then AUDIO_DEVICE_HDMI
                  else if String.eqb v "analog" then AUDIO_DEVICE_ANALOG
                  else AUDIO_DEVICE_NONE) o)
        end
      else if String.eqb arg "-l" then
        parse_list name rest (set_low_latency (negb (low_latency o)) o)
      else if String.eqb arg "-h" || String.eqb arg "-v" then Exited name 0
      else parse_list name rest o
  end.

(** The text of a byte as the kernel writes it to the address file: two
    lower-case hexadecimal digits. *)
Definition hex_digit_char (d : Z) : ascii :=
  if d <? 10 then ascii_of_nat (Z.to_nat (48 + d))
  else ascii_of_nat (Z.to_nat (87 + d)).

Definition byte_pair (b : Z) : hex_pair :=
  (hex_digit_char (b / 16), hex_digit_char (b mod 16)).

(** The content of an address file for the address [bs]. *)
Definition address_file (bs : list Z) : string :=
  delimited ":" (map byte_pair bs) ++ String "010" EmptyString.

Definition is_byte (b : Z) : bool := (0 <=? b) && (b <? 256).

(** A white-space character occurs in [s]. *)
Fixpoint has_space (s : string) : bool :=
  match s with
  | EmptyString => false
  | String c r => Std.isspace c || has_space r
  end.

(** The calls that set a subsystem going. *)
Definition is_start (e : event) : bool :=
  match e with
  | ev_video_renderer_start _ | ev_audio_renderer_start _ | ev_raop_start _ => true
  | _ => false
  end.

(** The five calls of [stop_server] for the handles in [g]. *)
Definition teardown_calls (g : globals) : list event :=
  [ev_raop_destroy (raop g);
   ev_dnssd_unregister_raop (dnssd g);
   ev_dnssd_unregister_airplay (dnssd g);
   ev_audio_renderer_destroy (audio_renderer g);
   ev_video_renderer_destroy (video_renderer g)].

(** An action that is no termination signal. *)
Definition is_quiet (a : action) : bool :=
  match a with
  | Tick => true
  | Signal sig => negb (is_termination_signal sig)
  end.

(** A signal that does not end the process by its default action. *)
Definition survives (sig : Z) : bool :=
  match disposition_of sig with
  | Terminates => false
  | _ => true
  end.

(** A statement, or a signal that leaves the program as it is. *)
Definition is_harmless (a : action) : bool :=
  match a with
  | Tick => true
  | Signal sig =>
      match disposition_of sig with
      | NoEffect => true
      | _ => false
      end
  end.

(** The process was ended by a signal. *)
Definition is_killed (p : process) : bool :=
  match at_pc p with
  | killed _ => true
  | _ => false
  end.

(** An argument that takes no part in [-n], [-a], [-h], [-v]. *)
Definition is_plain (arg : string) : bool :=
  negb (String.eqb arg "-n" || String.eqb arg "-a"
        || String.eqb arg "-h" || String.eqb arg "-v").

(** How often [x] occurs among [args]. *)
Definition count_arg (x : string) (args : list string) : nat :=
  List.length (filter (String.eqb x) args).


(** Every character of [s] is white space. *)
Fixpoint all_space (s : string) : bool :=
  match s with
  | EmptyString => true
  | String c r => Std.isspace c && all_space r
  end.

(** What may follow a word: the end of the text or a white space. *)
Definition token_ends (tail : string) : bool :=
  match tail with
  | EmptyString => true
  | String c _ => Std.isspace c
  end.

(** The start calls [start_server] makes once all renderers exist, for the
    handles in [g]. *)
Definition start_calls (g : globals) : list event :=
  (ev_video_renderer_start (video_renderer g)
   :: (if is_null (audio_renderer g) then []
       else [ev_audio_renderer_start (audio_renderer g)])
   ++ [ev_raop_start (raop g)])%list.

(** The calls of a [start_server] in which every step succeeds, with the
    answers of [E]. *)
Definition success_calls (E : env) (hw_addr : list char) (name : string)
    (show_background : bool) (dev : audio_device_t) (low_latency : bool)
    : list event :=
  let r := raop_init_result E in
  let lg := logger_init_result E in
  let v := video_renderer_init_result E in
  let a := audio_renderer_init_result E in
  let d := dnssd_init_result E in
  let port := to_ushort (raop_start_port E) in
  ([ev_raop_init 10
      (mkCallbacks (Some cb_audio_process) (Some cb_video_process)
         (Some cb_audio_set_volume));
    ev_log LOGD "raop init success" [];
    ev_raop_set_log_callback r cb_log_callback;
    ev_raop_set_log_level r RAOP_LOG_DEBUG;
    ev_logger_init;
    ev_logger_set_callback lg cb_log_callback;
    ev_logger_set_level lg LOGGER_DEBUG]
   ++ (if low_latency
       then [ev_logger_log lg LOGGER_INFO "Using low-latency mode"] else [])
   ++ [ev_video_renderer_init lg show_background low_latency]
   ++ (if audio_device_eqb dev AUDIO_DEVICE_NONE
       then [ev_log LOGI "Audio disabled" []]
       else [ev_audio_renderer_init lg v dev low_latency])
   ++ [ev_video_renderer_start v]
   ++ (if audio_device_eqb dev AUDIO_DEVICE_NONE
       then [] else [ev_audio_renderer_start a])
   ++ [ev_raop_start r;
       ev_raop_set_port r port;
       ev_raop_get_port r;
       ev_log LOGD "raop port = % d" [raop_get_port_result E];
       ev_dnssd_init name (strlen name) hw_addr (List.length hw_addr);
       ev_raop_set_dnssd r d;
       ev_dnssd_register_raop d port;
       ev_dnssd_register_airplay d (to_port_param (int_add port 1))])%list.

(** The handles among the globals. *)
Definition handles (g : globals) : ptr * ptr * ptr * ptr :=
  (raop g, dnssd g, video_renderer g, audio_renderer g).


(** * Properties *)

(** ** Hardware-address parsing *)

Lemma to_char_small v : 0 <= v < 256 -> to_char v = v.
Proof.
  intros H. unfold to_char. change 255 with (Z.ones 8).
  rewrite Z.land_ones by lia. apply Z.mod_small. lia.
Qed.

Lemma drop_app pre s : Std.drop (String.length pre) (pre ++ s) = s.
Proof. induction pre as [|c pre IH]; simpl; auto. Qed.

Lemma string_length_app (s t : string) :
  String.length (s ++ t) = (String.length s + String.length t)%nat.
Proof. induction s as [|c s IH]; simpl; auto. Qed.

Lemma string_app_assoc (s t u : string) : ((s ++ t) ++ u = s ++ (t ++ u))%string.
Proof. induction s as [|c s IH]; simpl; congruence. Qed.

(** A hexadecimal digit is no white space, no sign and no prefix letter,
    and its value is below 16. *)
Lemma hex_digit_facts c d :
  Std.digit_of 16 c = Some d ->
  Std.isspace c = false /\ c <> "-"%char /\ c <> "+"%char
  /\ Ascii.eqb c "x" = false /\ Ascii.eqb c "X" = false /\ 0 <= d < 16.
Proof.
  destruct c as [[] [] [] [] [] [] [] []]; vm_compute; intros H;
    try discriminate H; injection H as <-;
    repeat split; try reflexivity; try discriminate.
Qed.

Lemma is_hex_digit c : is_hex c = true -> Std.digit_of 16 c = Some (hex_value c).
Proof.
  unfold is_hex, hex_value. destruct (Std.digit_of 16 c); [reflexivity | discriminate].
Qed.

Lemma take_sign_other c r :
  c <> "-"%char -> c <> "+"%char -> Std.take_sign (String c r) = (false, String c r).
Proof.
  intros Hm Hp.
  destruct c as [[] [] [] [] [] [] [] []]; try reflexivity;
    exfalso; (apply Hm; reflexivity) || (apply Hp; reflexivity).
Qed.

Lemma strip_hex_prefix_digits h l r :
  Ascii.eqb l "x" = false -> Ascii.eqb l "X" = false ->
  Std.strip_hex_prefix 16 (String h (String l r)) = String h (String l r).
Proof.
  intros Hx HX. unfold Std.strip_hex_prefix.
  destruct h as [[] [] [] [] [] [] [] []]; try reflexivity.
  destruct r as [|d r]; [reflexivity|].
  rewrite Hx, HX. reflexivity.
Qed.

Lemma LONG_range long_bits v :
  32 <= long_bits -> 0 <= v < 256 ->
  (Std.LONG_MIN long_bits <=? v) && (v <=? Std.LONG_MAX long_bits) = true.
Proof.
  intros Hb Hv. unfold Std.LONG_MIN, Std.LONG_MAX.
  assert (H : 2 ^ 31 <= 2 ^ (long_bits - 1)) by (apply Z.pow_le_mono_r; lia).
  change (2 ^ 31) with 2147483648 in H.
  apply andb_true_intro; split; apply Z.leb_le; lia.
Qed.

(** [stol] reads a pair of hexadecimal digits as the byte they denote. *)
Lemma stol_hex_pair long_bits h l rest :
  32 <= long_bits ->
  is_hex h = true -> is_hex l = true -> ends_digits rest = true ->
  Std.stol long_bits (String h (String l rest)) 16 = Returns (pair_value (h, l))
  /\ 0 <= pair_value (h, l) < 256.
Proof.
  intros Hb Hh Hl Hr.
  apply is_hex_digit in Hh, Hl.
  destruct (hex_digit_facts _ _ Hh) as (Hsp & Hm & Hp & _ & _ & Hdh).
  destruct (hex_digit_facts _ _ Hl) as (_ & _ & _ & Hx & HX & Hdl).
  assert (Hv : 0 <= pair_value (h, l) < 256) by (unfold pair_value; simpl; lia).
  split; [|exact Hv].
  unfold Std.stol.
  replace (Std.skip_space (String h (String l rest))) with (String h (String l rest))
    by (simpl; rewrite Hsp; reflexivity).
  rewrite take_sign_other by assumption.
  rewrite strip_hex_prefix_digits by assumption.
  assert (Hscan : Std.scan_digits 16 (String h (String l rest))
                  = Some (pair_value (h, l))).
  { unfold Std.scan_digits. rewrite Hh. f_equal.
    unfold Std.scan_digits_acc; fold Std.scan_digits_acc. rewrite Hl.
    destruct rest as [|c rest]; [reflexivity|].
    unfold Std.scan_digits_acc; fold Std.scan_digits_acc.
    simpl in Hr. unfold is_hex in Hr.
    destruct (Std.digit_of 16 c); [discriminate | reflexivity]. }
  rewrite Hscan. cbv zeta.
  rewrite LONG_range by assumption. reflexivity.
Qed.

Section ParseHwAddrFacts.

Variable long_bits : Z.
Hypothesis long_bits_min : 32 <= long_bits.

Lemma substr_in_range str i :
  (i <= String.length str)%nat -> Std.substr str i = Returns (Std.drop i str).
Proof.
  intros H. unfold Std.substr.
  destruct (Nat.ltb_spec (String.length str) i); [lia | reflexivity].
Qed.

Lemma parse_hw_addr_loop_done fuel str i hw :
  (String.length str <= i)%nat ->
  parse_hw_addr_loop long_bits (S fuel) str i hw = Returns hw.
Proof.
  intros H. simpl.
  destruct (Nat.ltb_spec i (String.length str)); [lia | reflexivity].
Qed.

(** One iteration at the offset where a pair of digits starts. *)
Lemma parse_hw_addr_loop_pair fuel pre h l rest hw :
  is_hex h = true -> is_hex l = true -> ends_digits rest = true ->
  parse_hw_addr_loop long_bits (S fuel) (pre ++ String h (String l rest))
    (String.length pre) hw
  = parse_hw_addr_loop long_bits fuel (pre ++ String h (String l rest))
      (String.length pre + 3) (hw ++ [pair_value (h, l)])%list.
Proof.
  intros Hh Hl Hr. cbn [parse_hw_addr_loop].
  rewrite string_length_app. cbn [String.length].
  destruct (Nat.ltb_spec (String.length pre)
              (String.length pre + S (S (String.length rest)))); [|lia].
  rewrite substr_in_range by (rewrite string_length_app; lia).
  rewrite drop_app. cbn [obind].
  destruct (stol_hex_pair long_bits h l rest long_bits_min Hh Hl Hr) as [-> Hv].
  cbn [obind]. rewrite to_char_small by exact Hv. reflexivity.
Qed.

Lemma parse_hw_addr_loop_delimited sep ps :
  is_hex sep = false ->
  Forall (fun p => is_hex_pair p = true) ps ->
  forall pre hw fuel,
    (List.length ps < fuel)%nat ->
    parse_hw_addr_loop long_bits fuel (pre ++ delimited sep ps)
      (String.length pre) hw
    = Returns (hw ++ map pair_value ps)%list.
Proof.
  intros Hsep Hps. induction Hps as [|[h l] rest Hp Hrest IH]; intros pre hw fuel Hf.
  - destruct fuel as [|fuel]; [simpl in Hf; lia|].
    rewrite parse_hw_addr_loop_done by (rewrite string_length_app; simpl; lia).
    now rewrite app_nil_r.
  - destruct fuel as [|fuel]; [simpl in Hf; lia|].
    apply andb_prop in Hp. destruct Hp as [Hh Hl]. simpl in Hh, Hl.
    destruct rest as [|q rest].
    + change (delimited sep [(h, l)]) with (String h (String l EmptyString)).
      rewrite parse_hw_addr_loop_pair by auto.
      destruct fuel as [|fuel]; [simpl in Hf; lia|].
      rewrite parse_hw_addr_loop_done by (rewrite string_length_app; simpl; lia).
      reflexivity.
    + change (delimited sep ((h, l) :: q :: rest))
        with (String h (String l (String sep (delimited sep (q :: rest))))).
      rewrite parse_hw_addr_loop_pair
        by (auto; cbn [ends_digits]; rewrite Hsep; reflexivity).
      specialize (IH (pre ++ String h (String l (String sep EmptyString)))%string
                     (hw ++ [pair_value (h, l)])%list fuel).
      rewrite string_app_assoc in IH. cbn [append] in IH.
      rewrite string_length_app in IH. cbn [String.length] in IH.
      rewrite IH by (simpl in Hf |- *; lia).
      rewrite <- app_assoc. reflexivity.
Qed.

End ParseHwAddrFacts.

Lemma delimited_length sep ps :
  (List.length ps <= String.length (delimited sep ps))%nat.
Proof.
  induction ps as [|p [|q rest] IH]; simpl in *; lia.
Qed.

(** C6.  [parse_hw_addr] converts at the offsets 0, 3, 6, ... of the text:
    for every text made of pairs of hexadecimal digits with one separator
    character that is no hexadecimal digit (a colon, a hyphen) between
    them, it appends the bytes the pairs denote, in order; and for
    "48:5d:60:7c:ee:22" these are exactly 0x48 0x5d 0x60 0x7c 0xee 0x22. *)
Theorem parse_hw_addr_delimited :
  forall (long_bits : Z) (sep : ascii) (ps : list hex_pair) (hw : list char),
    32 <= long_bits ->
    is_hex sep = false ->
    Forall (fun p => is_hex_pair p = true) ps ->
    parse_hw_addr long_bits (delimited sep ps) hw
      = Returns (hw ++ map pair_value ps)%list
    /\ parse_hw_addr long_bits "48:5d:60:7c:ee:22" []
       = Returns [0x48; 0x5d; 0x60; 0x7c; 0xee; 0x22].
Proof.
  intros long_bits sep ps hw Hb Hsep Hps.
  assert (Hgen : forall sep' ps' hw',
             is_hex sep' = false ->
             Forall (fun p => is_hex_pair p = true) ps' ->
             parse_hw_addr long_bits (delimited sep' ps') hw'
             = Returns (hw' ++ map pair_value ps')%list).
  { intros sep' ps' hw' Hs Hf. unfold parse_hw_addr.
    apply (parse_hw_addr_loop_delimited long_bits Hb sep' ps' Hs Hf EmptyString).
    pose proof (delimited_length sep' ps'). lia. }
  split; [apply Hgen; assumption|].
  apply (Hgen ":"%char
           [("4", "8"); ("5", "d"); ("6", "0"); ("7", "c"); ("e", "e"); ("2", "2")]%char
           []).
  - reflexivity.
  - repeat constructor.
Qed.

Lemma parse_hw_addr_delimited_witness :
  parse_hw_addr 32 (delimited "-" [("A", "b"); ("0", "1"); ("f", "F")]%char) [7]
    = Returns ([7] ++ map pair_value [("A", "b"); ("0", "1"); ("f", "F")]%char)%list
  /\ parse_hw_addr 32 "48:5d:60:7c:ee:22" []
     = Returns [0x48; 0x5d; 0x60; 0x7c; 0xee; 0x22].
Proof.
  apply (parse_hw_addr_delimited 32 "-"
           [("A", "b"); ("0", "1"); ("f", "F")]%char [7]).
  - lia.
  - reflexivity.
  - repeat constructor.
Defined.

(** ** The number of bytes [parse_hw_addr] appends *)

Lemma ceil_div3_step n i :
  (i < n)%nat -> ceil_div3 (n - i) = S (ceil_div3 (n - (i + 3))).
Proof.
  intros H. unfold ceil_div3.
  destruct (Nat.le_gt_cases (i + 3) n) as [Hge | Hlt].
  - replace (n - i + 2)%nat with (n - (i + 3) + 2 + 1 * 3)%nat by lia.
    rewrite Nat.div_add by lia. lia.
  - replace (n - (i + 3))%nat with 0%nat by lia.
    assert (Hc : (n - i = 1 \/ n - i = 2)%nat) by lia.
    destruct Hc as [-> | ->]; reflexivity.
Qed.

Lemma ceil_div3_zero n i : (n <= i)%nat -> ceil_div3 (n - i) = 0%nat.
Proof. intros H. replace (n - i)%nat with 0%nat by lia. reflexivity. Qed.

Lemma ceil_div3_six n : ceil_div3 n = 6%nat <-> (16 <= n <= 18)%nat.
Proof.
  unfold ceil_div3. split; intros H.
  - assert (H1 := Nat.div_mod_eq (n + 2) 3).
    assert (H2 := Nat.mod_upper_bound (n + 2) 3). lia.
  - assert (Hc : (n = 16 \/ n = 17 \/ n = 18)%nat) by lia.
    destruct Hc as [-> | [-> | ->]]; reflexivity.
Qed.

Section ParseHwAddrCount.

Variable long_bits : Z.
Variable str : string.

Let n : nat := String.length str.

(** When every conversion from offset [i] on succeeds the loop returns,
    having appended one byte per offset. *)
Lemma parse_hw_addr_loop_returns fuel :
  forall i hw,
    (n - i < fuel)%nat ->
    forallb (converts long_bits str) (offsets i (ceil_div3 (n - i))) = true ->
    exists bytes,
      parse_hw_addr_loop long_bits fuel str i hw = Returns bytes
      /\ List.length bytes = (List.length hw + ceil_div3 (n - i))%nat.
Proof.
  induction fuel as [|fuel IH]; intros i hw Hf Hall; [lia|].
  cbn [parse_hw_addr_loop]. fold n.
  destruct (Nat.ltb_spec i n) as [Hlt | Hge].
  - rewrite substr_in_range by (fold n; lia). cbn [obind].
    rewrite (ceil_div3_step n i Hlt) in Hall |- *.
    cbn [offsets forallb] in Hall. apply andb_prop in Hall.
    destruct Hall as [Hc Hrest]. unfold converts in Hc.
    destruct (Std.stol long_bits (Std.drop i str) 16) as [v| |]; try discriminate.
    cbn [obind].
    destruct (IH (i + 3)%nat (hw ++ [to_char v])%list) as (bytes & Hb & Hlen);
      [lia | exact Hrest |].
    exists bytes. split; [exact Hb|].
    rewrite Hlen, length_app. simpl. lia.
  - exists hw. split; [reflexivity|]. rewrite ceil_div3_zero by lia. lia.
Qed.

(** When some conversion fails the loop ends in the exception [stol]
    throws there. *)
Lemma parse_hw_addr_loop_throws fuel :
  forall i hw,
    (n - i < fuel)%nat ->
    forallb (converts long_bits str) (offsets i (ceil_div3 (n - i))) = false ->
    exists e, parse_hw_addr_loop long_bits fuel str i hw = Throws e.
Proof.
  induction fuel as [|fuel IH]; intros i hw Hf Hall; [lia|].
  cbn [parse_hw_addr_loop]. fold n.
  destruct (Nat.ltb_spec i n) as [Hlt | Hge].
  - rewrite substr_in_range by (fold n; lia). cbn [obind].
    rewrite (ceil_div3_step n i Hlt) in Hall.
    cbn [offsets forallb] in Hall. unfold converts in Hall at 1.
    unfold Std.stol in *.
    destruct (Std.take_sign (Std.skip_space (Std.drop i str))) as [neg s1].
    destruct (Std.scan_digits 16 (Std.strip_hex_prefix 16 s1)) as [mag|];
      [|exists invalid_argument; reflexivity].
    cbv zeta in *.
    destruct ((Std.LONG_MIN long_bits <=? (if neg then - mag else mag))
              && ((if neg then - mag else mag) <=? Std.LONG_MAX long_bits));
      [|exists out_of_range; reflexivity].
    cbn [obind]. apply IH; [lia | exact Hall].
  - rewrite ceil_div3_zero in Hall by lia. discriminate Hall.
Qed.

End ParseHwAddrCount.

(** C9 (amended).  For a non-empty string on which every conversion at the
    offsets 0, 3, 6, ... succeeds, [parse_hw_addr] appends exactly
    ceil(|s|/3) bytes, so the address the resolver builds from it has 6
    bytes only when the string has 16, 17 or 18 characters; when a
    conversion fails, [stol] throws and no address is produced. *)
Theorem parse_hw_addr_count :
  forall (long_bits : Z) (s : string) (hw : list char),
    s <> EmptyString ->
    (all_convert long_bits s = true ->
     (exists bytes,
         parse_hw_addr long_bits s hw = Returns bytes
         /\ List.length bytes = (List.length hw + ceil_div3 (String.length s))%nat)
     /\ (exists addr,
            resolve_hw_addr long_bits s = Returns addr
            /\ List.length addr = ceil_div3 (String.length s)
            /\ (List.length addr = 6%nat <-> (16 <= String.length s <= 18)%nat)))
    /\ (all_convert long_bits s = false ->
        (exists e, parse_hw_addr long_bits s hw = Throws e)
        /\ (exists e, resolve_hw_addr long_bits s = Throws e)).
Proof.
  intros long_bits s hw Hne.
  assert (Hres : resolve_hw_addr long_bits s = parse_hw_addr long_bits s []).
  { unfold resolve_hw_addr. destruct (String.eqb_spec s ""); [contradiction | reflexivity]. }
  assert (H0 : ceil_div3 (String.length s) = ceil_div3 (String.length s - 0))
    by (rewrite Nat.sub_0_r; reflexivity).
  unfold all_convert, parse_hw_addr. rewrite H0.
  split; intros Hall.
  - split.
    + destruct (parse_hw_addr_loop_returns long_bits s (S (String.length s)) 0%nat hw)
        as (bytes & Hb & Hlen); [lia | exact Hall |].
      eauto.
    + destruct (parse_hw_addr_loop_returns long_bits s (S (String.length s)) 0%nat [])
        as (addr & Hb & Hlen); [lia | exact Hall |].
      simpl in Hlen. rewrite <- H0 in *.
      exists addr. rewrite Hres.
      split; [exact Hb|]. split; [exact Hlen|].
      rewrite Hlen. apply ceil_div3_six.
  - rewrite Hres. unfold parse_hw_addr.
    split; apply parse_hw_addr_loop_throws; solve [lia | exact Hall].
Qed.

Lemma parse_hw_addr_count_witness :
  (exists bytes,
      parse_hw_addr 32 "b8:27:eb:01:02:03:04" [] = Returns bytes
      /\ List.length bytes = (0 + ceil_div3 20)%nat)
  /\ (exists addr,
         resolve_hw_addr 32 "b8:27:eb:01:02:03:04" = Returns addr
         /\ List.length addr = ceil_div3 20
         /\ (List.length addr = 6%nat <-> (16 <= 20 <= 18)%nat)).
Proof.
  apply (parse_hw_addr_count 32 "b8:27:eb:01:02:03:04" []).
  - discriminate.
  - vm_compute. reflexivity.
Defined.

(** C9 as stated fails: "xx:xx:xx:xx:xx:xx" is not empty, and no byte is
    appended for it: the first conversion throws. *)
Lemma parse_hw_addr_count_counterexample :
  "xx:xx:xx:xx:xx:xx" <> EmptyString
  /\ parse_hw_addr 32 "xx:xx:xx:xx:xx:xx" [] = Throws invalid_argument
  /\ parse_hw_addr 64 "xx:xx:xx:xx:xx:xx" [] = Throws invalid_argument
  /\ ~ (exists bytes,
          parse_hw_addr 32 "xx:xx:xx:xx:xx:xx" [] = Returns bytes
          /\ List.length bytes = ceil_div3 (String.length "xx:xx:xx:xx:xx:xx")).
Proof.
  split; [discriminate|].
  split; [vm_compute; reflexivity|].
  split; [vm_compute; reflexivity|].
  intros (bytes & H & _). vm_compute in H. discriminate H.
Qed.

(** ** Command-line parsing *)

Section ArgumentFacts.

Variable argv : list string.

Lemma parse_arg_advances i o i' o' :
  parse_arg argv i o = Next i' o' -> (i < i')%nat.
Proof.
  unfold parse_arg.
  repeat match goal with
         | |- context [if ?b then _ else _] => destruct b
         end;
    intros H; try discriminate H; injection H as <- _; lia.
Qed.

Lemma parse_args_loop_fuel fuel :
  forall i o,
    (argc argv - i < fuel)%nat ->
    parse_args_loop argv fuel i o = parse_args_loop argv (S fuel) i o.
Proof.
  induction fuel as [|fuel IH]; intros i o Hf; [lia|].
  cbn [parse_args_loop].
  destruct (Nat.ltb_spec i (argc argv)) as [Hlt | Hge]; [|reflexivity].
  destruct (parse_arg argv i o) as [i' o' | name status] eqn:Hstep; [|reflexivity].
  apply parse_arg_advances in Hstep.
  rewrite (IH i' o') by lia. reflexivity.
Qed.

Lemma parse_args_from_step i o i' o' :
  (i < argc argv)%nat ->
  parse_arg argv i o = Next i' o' ->
  parse_args_from argv i o = parse_args_from argv i' o'.
Proof.
  intros Hlt Hstep. unfold parse_args_from at 1. cbn [parse_args_loop].
  destruct (Nat.ltb_spec i (argc argv)); [|lia].
  rewrite Hstep. apply parse_arg_advances in Hstep.
  apply parse_args_loop_fuel. lia.
Qed.

Lemma parse_args_from_end i o :
  (argc argv <= i)%nat -> parse_args_from argv i o = Returns (Parsed o).
Proof.
  intros H. unfold parse_args_from. cbn [parse_args_loop].
  destruct (Nat.ltb_spec i (argc argv)); [lia | reflexivity].
Qed.

Lemma reaches_parse_args i o :
  reaches argv i o -> parse_args argv = parse_args_from argv i o.
Proof.
  induction 1 as [|i o i' o' _ IH Hlt Hstep]; [reflexivity|].
  rewrite IH. apply parse_args_from_step; assumption.
Qed.

(** The argument loop always ends. *)
Lemma parse_args_loop_total fuel :
  forall i o,
    (argc argv - i < fuel)%nat ->
    exists r, parse_args_loop argv fuel i o = Returns r.
Proof.
  induction fuel as [|fuel IH]; intros i o Hf; [lia|].
  cbn [parse_args_loop].
  destruct (Nat.ltb_spec i (argc argv)) as [Hlt | Hge]; [|eauto].
  destruct (parse_arg argv i o) as [i' o' | name status] eqn:Hstep; [|eauto].
  apply parse_arg_advances in Hstep. apply IH. lia.
Qed.

Lemma parse_args_total : exists r, parse_args argv = Returns r.
Proof. apply parse_args_loop_total. lia. Qed.

Lemma reaches_positive i o : reaches argv i o -> (1 <= i)%nat.
Proof.
  induction 1 as [|i o i' o' _ IH _ Hstep]; [lia|].
  apply parse_arg_advances in Hstep. lia.
Qed.

(** Until an argument "-n" has been seen the name is the default one. *)
Lemma reaches_default_name i o :
  reaches argv i o ->
  (forall j, (1 <= j < i)%nat -> arg_at argv j <> "-n") ->
  server_name o = DEFAULT_NAME.
Proof.
  induction 1 as [|i o i' o' Hr IH Hlt Hstep]; intros Hno; [reflexivity|].
  pose proof (parse_arg_advances _ _ _ _ Hstep) as Hadv.
  assert (Hi : server_name o = DEFAULT_NAME) by (apply IH; intros j Hj; apply Hno; lia).
  pose proof (reaches_positive _ _ Hr) as H1.
  assert (Hn : String.eqb (arg_at argv i) "-n" = false).
  { apply String.eqb_neq. apply Hno. lia. }
  unfold parse_arg in Hstep. rewrite Hn in Hstep.
  repeat match type of Hstep with
         | context [if ?b then _ else _] => destruct b
         end;
    try discriminate Hstep; injection Hstep as _ <-; exact Hi.
Qed.

(** Until an argument "-a" has been seen the audio device is the default. *)
Lemma reaches_default_audio i o :
  reaches argv i o ->
  (forall j, (1 <= j < i)%nat -> arg_at argv j <> "-a") ->
  audio_device o = DEFAULT_AUDIO_DEVICE.
Proof.
  induction 1 as [|i o i' o' Hr IH Hlt Hstep]; intros Hno; [reflexivity|].
  pose proof (parse_arg_advances _ _ _ _ Hstep) as Hadv.
  assert (Hi : audio_device o = DEFAULT_AUDIO_DEVICE)
    by (apply IH; intros j Hj; apply Hno; lia).
  pose proof (reaches_positive _ _ Hr) as H1.
  assert (Hn : String.eqb (arg_at argv i) "-a" = false).
  { apply String.eqb_neq. apply Hno. lia. }
  unfold parse_arg in Hstep. rewrite Hn in Hstep.
  repeat match type of Hstep with
         | context [if ?b then _ else _] => destruct b
         end;
    try discriminate Hstep; injection Hstep as _ <-; exact Hi.
Qed.

End ArgumentFacts.

(** C8.  When the loop finds "-n" or "-a" as the last argument it skips
    it: the locals are left as they are (so a name or audio device not set
    by an earlier option is still the default one), nothing is reported,
    and the loop ends normally with these locals. *)
Theorem trailing_option_skipped :
  forall (argv : list string) (i : nat) (o : options),
    reaches argv i o ->
    i = (argc argv - 1)%nat ->
    arg_at argv i = "-n" \/ arg_at argv i = "-a" ->
    parse_arg argv i o = Next (i + 1) o
    /\ parse_args argv = Returns (Parsed o)
    /\ (arg_at argv i = "-n" ->
        (forall j, (1 <= j < i)%nat -> arg_at argv j <> "-n") ->
        server_name o = DEFAULT_NAME)
    /\ (arg_at argv i = "-a" ->
        (forall j, (1 <= j < i)%nat -> arg_at argv j <> "-a") ->
        audio_device o = DEFAULT_AUDIO_DEVICE).
Proof.
  intros argv i o Hr Hlast Hopt.
  pose proof (reaches_positive _ _ _ Hr) as Hpos.
  assert (Hstep : parse_arg argv i o = Next (i + 1) o).
  { unfold parse_arg.
    destruct (Nat.eqb_spec i (argc argv - 1)) as [_ | Hne]; [|contradiction].
    destruct Hopt as [-> | ->]; reflexivity. }
  split; [exact Hstep|]. split.
  - rewrite (reaches_parse_args _ _ _ Hr).
    rewrite (parse_args_from_step argv i o (i + 1) o) by (assumption || lia).
    apply parse_args_from_end. lia.
  - split; intros _ Hno.
    + exact (reaches_default_name _ _ _ Hr Hno).
    + exact (reaches_default_audio _ _ _ Hr Hno).
Qed.

Lemma trailing_option_skipped_witness :
  let argv := ["rpiplay"; "-b"; "-n"] in
  let o := set_show_background false default_options in
  parse_arg argv 2 o = Next 3 o
  /\ parse_args argv = Returns (Parsed o)
  /\ server_name o = "RPiPlay".
Proof.
  intros argv o.
  assert (Hr : reaches argv 2 o).
  { apply (reaches_next argv 1 default_options 2 o);
      [apply reaches_first | vm_compute; lia | reflexivity]. }
  destruct (trailing_option_skipped argv 2 o Hr eq_refl (or_introl eq_refl))
    as (Hstep & Hparse & Hname & _).
  split; [exact Hstep|]. split; [exact Hparse|].
  apply Hname; [reflexivity|].
  intros j Hj. assert (j = 1%nat) as -> by lia. discriminate.
Defined.

(** C10.  When the loop finds an argument that is none of the six options
    it goes on to the next argument with the locals unchanged: nothing is
    reported, the process does not exit, and the result of the whole parse
    is that of the remaining arguments. *)
Theorem unknown_argument_ignored :
  forall (argv : list string) (i : nat) (o : options),
    reaches argv i o ->
    (i < argc argv)%nat ->
    is_option (arg_at argv i) = false ->
    parse_arg argv i o = Next (i + 1) o
    /\ reaches argv (i + 1) o
    /\ parse_args argv = parse_args_from argv (i + 1) o
    /\ exists r, parse_args argv = Returns r.
Proof.
  intros argv i o Hr Hlt Hunk.
  assert (Hstep : parse_arg argv i o = Next (i + 1) o).
  { unfold is_option in Hunk. unfold parse_arg.
    repeat (apply orb_false_elim in Hunk; destruct Hunk as [Hunk ?]).
    repeat match goal with
           | H : String.eqb _ _ = false |- _ => rewrite H; clear H
           end.
    reflexivity. }
  split; [exact Hstep|]. split; [|split].
  - exact (reaches_next argv i o (i + 1) o Hr Hlt Hstep).
  - rewrite (reaches_parse_args _ _ _ Hr).
    apply parse_args_from_step; assumption.
  - apply parse_args_total.
Qed.

Lemma unknown_argument_ignored_witness :
  let argv := ["rpiplay"; "--fullscreen"; "-l"] in
  parse_arg argv 1 default_options = Next 2 default_options
  /\ reaches argv 2 default_options
  /\ parse_args argv = parse_args_from argv 2 default_options
  /\ exists r, parse_args argv = Returns r.
Proof.
  intros argv.
  apply (unknown_argument_ignored argv 1 default_options).
  - apply reaches_first.
  - vm_compute. lia.
  - reflexivity.
Defined.

(** ** [start_server] and [stop_server] *)

Ltac run_server :=
  cbv [start_server stop_server exec exec_void start_server_body stop_server_body
       bind when call read write log ret return_ vars trace
       raop dnssd video_renderer audio_renderer running
       set_raop set_dnssd set_video_renderer set_audio_renderer set_running
       fst snd].

(** Case analysis on the tests, in the order the code performs them. *)
Ltac split_tests :=
  repeat (match goal with
          | |- context [if ?b then _ else _] =>
              lazymatch b with
              | negb ?c => destruct c eqn:?
              | _ => destruct b eqn:?
              end
          end; cbn [negb]; cbv beta iota).

Lemma is_null_true p : is_null p = true <-> p = NULL.
Proof. unfold is_null. apply Z.eqb_eq. Qed.

Lemma is_null_false p : is_null p = false <-> p <> NULL.
Proof. unfold is_null. apply Z.eqb_neq. Qed.

Lemma audio_device_eqb_eq a b : audio_device_eqb a b = true <-> a = b.
Proof. destruct a, b; simpl; split; congruence. Qed.

Lemma audio_device_eqb_neq a b : audio_device_eqb a b = false <-> a <> b.
Proof. destruct a, b; simpl; split; congruence. Qed.

Lemma advertised_app t u : advertised (t ++ u)%list = (advertised t ++ advertised u)%list.
Proof.
  induction t as [|e t IH]; [reflexivity|].
  destruct e; simpl; rewrite ?IH; reflexivity.
Qed.

Lemma errors_logged_app t u :
  errors_logged (t ++ u)%list = (errors_logged t ++ errors_logged u)%list.
Proof.
  induction t as [|e t IH]; [reflexivity|].
  destruct e as [[] ? ?| | | | | | | | | | | | | | | | | | | | | | | |];
    simpl; rewrite ?IH; reflexivity.
Qed.

(** Closes one fact about a path: by computation, from the tests that
    hold on the path. *)
Ltac path_fact :=
  first
    [ reflexivity
    | congruence
    | unfold fails_at;
      repeat match goal with
             | H : ?b = true |- context [?b] => rewrite H
             | H : ?b = false |- context [?b] => rewrite H
             end;
      reflexivity ].

Lemma snoc_added {A : Type} (l t x : list A) (e : A) :
  l = (t ++ x)%list -> (l ++ [e])%list = (t ++ (x ++ [e]))%list.
Proof. intros ->. now rewrite app_assoc. Qed.

Lemma nil_added {A : Type} (t : list A) : t = (t ++ [])%list.
Proof. now rewrite app_nil_r. Qed.

(** What a call of [start_server] does, path by path: the events it adds
    to the trace, the value it returns and the globals it leaves. *)
Lemma start_server_paths E hw_addr name bg dev ll w r w' :
  start_server E hw_addr name bg dev ll w = (r, w') ->
  exists added,
    trace w' = (trace w ++ added)%list
    /\ filter is_teardown added = []
    /\ raop (vars w') = raop_init_result E
    /\ ((fails_at E dev EngineInitFailed = true
         /\ r = -1
         /\ errors_logged added = [error_message EngineInitFailed])
        \/ (fails_at E dev VideoRendererInitFailed = true
            /\ r = -1
            /\ errors_logged added = [error_message VideoRendererInitFailed]
            /\ video_renderer (vars w') = video_renderer_init_result E)
        \/ (fails_at E dev AudioRendererInitFailed = true
            /\ r = -1
            /\ errors_logged added = [error_message AudioRendererInitFailed]
            /\ video_renderer (vars w') = video_renderer_init_result E
            /\ audio_renderer (vars w') = audio_renderer_init_result E)
        \/ (fails_at E dev DiscoveryInitFailed = true
            /\ r = -2
            /\ errors_logged added = [error_message DiscoveryInitFailed]
            /\ video_renderer (vars w') = video_renderer_init_result E
            /\ (dev = AUDIO_DEVICE_NONE ->
                audio_renderer (vars w') = audio_renderer (vars w))
            /\ (dev <> AUDIO_DEVICE_NONE ->
                audio_renderer (vars w') = audio_renderer_init_result E))
        \/ ((forall f, fails_at E dev f = false)
            /\ r = 0
            /\ errors_logged added = []
            /\ video_renderer (vars w') = video_renderer_init_result E
            /\ (dev = AUDIO_DEVICE_NONE ->
                audio_renderer (vars w') = audio_renderer (vars w))
            /\ (dev <> AUDIO_DEVICE_NONE ->
                audio_renderer (vars w') = audio_renderer_init_result E)
            /\ advertised added
               = [(primary_service, to_ushort (raop_start_port E));
                  (companion_service,
                   to_port_param (int_add (to_ushort (raop_start_port E)) 1))])).
Proof.
  destruct w as [[run d r0 v a] t].
  run_server. split_tests.
  all: intros Hrun; apply pair_equal_spec in Hrun; destruct Hrun as [Hr Hw];
    subst r w'; cbn [vars trace raop video_renderer audio_renderer];
    eexists; split; [repeat apply snoc_added; apply nil_added|];
    split; [reflexivity|]; split; [reflexivity|].
  all: try match goal with
           | H : audio_device_eqb _ _ = true |- _ =>
               pose proof (proj1 (audio_device_eqb_eq _ _) H)
           | H : audio_device_eqb _ _ = false |- _ =>
               pose proof (proj1 (audio_device_eqb_neq _ _) H)
           end.
  all: first
    [ left; repeat split; solve [path_fact]
    | right; left; repeat split; solve [path_fact]
    | right; right; left; repeat split; solve [path_fact]
    | right; right; right; left; repeat split; intros; solve [path_fact]
    | right; right; right; right;
      split; [intros []; solve [path_fact] | repeat split; intros; solve [path_fact]] ].
Qed.

(** At most one step is the first to fail. *)
Lemma fails_at_unique E dev f g :
  fails_at E dev f = true -> fails_at E dev g = true -> f = g.
Proof.
  unfold fails_at.
  destruct (is_null (raop_init_result E)), (is_null (video_renderer_init_result E)),
    (audio_device_eqb dev AUDIO_DEVICE_NONE), (is_null (audio_renderer_init_result E)),
    (dnssd_init_error E =? 0);
    destruct f, g; cbn [negb andb orb]; intros Hf Hg;
    solve [reflexivity | discriminate Hf | discriminate Hg].
Qed.

(** C1 as stated fails: the video renderer cannot be constructed, the
    engine constructed before it is not destroyed and its handle is still
    in [raop] when [start_server] has returned -1. *)
Lemma failed_start_unwinds_counterexample :
  let rw := start_server env_video_fails DEFAULT_HW_ADDRESS DEFAULT_NAME
              true AUDIO_DEVICE_HDMI false initial_world in
  fst rw = -1
  /\ raop (vars (snd rw)) = 1
  /\ existsb (destroys_raop 1) (trace (snd rw)) = false
  /\ no_live_handle (snd rw) = false.
Proof. vm_compute. repeat split. Qed.

(** C1 (amended).  When [start_server] fails it returns at once: it makes
    no destroy or unregister call, and the handles of the subsystems
    constructed before the failing step are left in the variables [raop],
    [video_renderer] and [audio_renderer]. *)
Theorem failed_start_keeps_handles :
  forall (E : env) (hw_addr : list char) (name : string)
         (show_background : bool) (dev : audio_device_t) (low_latency : bool)
         (w w' : world) (r : Z),
    start_server E hw_addr name show_background dev low_latency w = (r, w') ->
    r <> 0 ->
    filter is_teardown (trace w') = filter is_teardown (trace w)
    /\ raop (vars w') = raop_init_result E
    /\ (raop_init_result E <> NULL ->
        video_renderer (vars w') = video_renderer_init_result E)
    /\ (raop_init_result E <> NULL ->
        video_renderer_init_result E <> NULL ->
        dev <> AUDIO_DEVICE_NONE ->
        audio_renderer (vars w') = audio_renderer_init_result E).
Proof.
  intros E hw_addr name bg dev ll w w' r Hrun Hfail.
  destruct (start_server_paths _ _ _ _ _ _ _ _ _ Hrun)
    as (added & Htrace & Hquiet & Hraop & Hpath).
  split; [rewrite Htrace, filter_app, Hquiet; apply app_nil_r|].
  split; [exact Hraop|].
  destruct Hpath as [(Hf & _) | [(Hf & _ & _ & Hv) | [(Hf & _ & _ & Hv & Ha)
    | [(Hf & _ & _ & Hv & _ & Ha) | (_ & Hr & _)]]]];
    [| | | | contradiction].
  - cbn [fails_at] in Hf. apply is_null_true in Hf. split; intros; contradiction.
  - split; [intros _; exact Hv|]. intros _ Hnn _.
    cbn [fails_at] in Hf. apply andb_prop in Hf. destruct Hf as [_ Hf].
    apply is_null_true in Hf. contradiction.
  - split; intros; assumption.
  - split; [intros _; exact Hv|]. intros _ _ Hdev. exact (Ha Hdev).
Qed.

Lemma failed_start_keeps_handles_witness :
  let w' := snd (start_server env_audio_fails DEFAULT_HW_ADDRESS DEFAULT_NAME
                   true AUDIO_DEVICE_ANALOG false initial_world) in
  filter is_teardown (trace w') = filter is_teardown (trace initial_world)
  /\ raop (vars w') = 1
  /\ (1 <> NULL -> video_renderer (vars w') = 3)
  /\ (1 <> NULL -> 3 <> NULL -> AUDIO_DEVICE_ANALOG <> AUDIO_DEVICE_NONE ->
      audio_renderer (vars w') = NULL).
Proof.
  intros w'.
  apply (failed_start_keeps_handles env_audio_fails DEFAULT_HW_ADDRESS DEFAULT_NAME
           true AUDIO_DEVICE_ANALOG false initial_world w' (-1)).
  - vm_compute. reflexivity.
  - lia.
Defined.

(** The calls and the result of [stop_server]. *)
Lemma stop_server_calls (w : world) :
  stop_server w
  = (0, {| vars := vars w;
           trace := (trace w
                     ++ [ev_raop_destroy (raop (vars w));
                         ev_dnssd_unregister_raop (dnssd (vars w));
                         ev_dnssd_unregister_airplay (dnssd (vars w));
                         ev_audio_renderer_destroy (audio_renderer (vars w));
                         ev_video_renderer_destroy (video_renderer (vars w))])%list |}).
Proof.
  destruct w as [[run d r v a] t]. run_server.
  repeat rewrite <- app_assoc. reflexivity.
Qed.

(** C2.  [stop_server] makes exactly these calls, in this order, whatever
    the globals hold: destroy the engine, unregister the two services,
    destroy the audio renderer, destroy the video renderer; it returns 0
    and changes no variable. *)
Theorem stop_server_order :
  forall w : world,
    stop_server w
    = (0, {| vars := vars w;
             trace := (trace w
                       ++ [ev_raop_destroy (raop (vars w));
                           ev_dnssd_unregister_raop (dnssd (vars w));
                           ev_dnssd_unregister_airplay (dnssd (vars w));
                           ev_audio_renderer_destroy (audio_renderer (vars w));
                           ev_video_renderer_destroy (video_renderer (vars w))])%list |}).
Proof.
  intros [[run d r v a] t]. run_server.
  repeat rewrite <- app_assoc. reflexivity.
Qed.

(** C3 as stated fails: a failure of the engine and a failure of the video
    renderer give the caller the same value. *)
Lemma start_failure_codes_counterexample :
  fails_at env_engine_fails AUDIO_DEVICE_HDMI EngineInitFailed = true
  /\ fails_at env_video_fails AUDIO_DEVICE_HDMI VideoRendererInitFailed = true
  /\ fst (start_server env_engine_fails DEFAULT_HW_ADDRESS DEFAULT_NAME
            true AUDIO_DEVICE_HDMI false initial_world)
     = fst (start_server env_video_fails DEFAULT_HW_ADDRESS DEFAULT_NAME
              true AUDIO_DEVICE_HDMI false initial_world).
Proof. vm_compute. repeat split. Qed.

(** C3 (amended).  Every failure makes [start_server] return a non-zero
    value: -1 when the engine, the video renderer or the audio renderer
    cannot be constructed, -2 when the advertiser reports an error; so the
    value tells a discovery failure from the three others and nothing
    more.  The one message logged at error severity is different for each
    of the four failures. *)
Theorem start_failure_codes :
  forall (E : env) (hw_addr : list char) (name : string)
         (show_background : bool) (dev : audio_device_t) (low_latency : bool)
         (w w' : world) (r : Z) (f : failure),
    fails_at E dev f = true ->
    start_server E hw_addr name show_background dev low_latency w = (r, w') ->
    r = error_code f
    /\ r <> 0
    /\ (r = -2 <-> f = DiscoveryInitFailed)
    /\ (r = -1 <-> f <> DiscoveryInitFailed)
    /\ errors_logged (trace w') = (errors_logged (trace w) ++ [error_message f])%list
    /\ (forall g, error_message g = error_message f -> g = f).
Proof.
  intros E hw_addr name bg dev ll w w' r f Hf Hrun.
  destruct (start_server_paths _ _ _ _ _ _ _ _ _ Hrun)
    as (added & Htrace & _ & _ & Hpath).
  assert (Hmsg : forall g, error_message g = error_message f -> g = f)
    by (intros g; destruct f, g; simpl; intros Heq; solve [reflexivity | discriminate Heq]).
  assert (Hcase : exists g, fails_at E dev g = true /\ r = error_code g
                            /\ errors_logged added = [error_message g]).
  { destruct Hpath as [(Hg & Hr & He) | [(Hg & Hr & He & _) | [(Hg & Hr & He & _)
      | [(Hg & Hr & He & _) | (Hnone & _)]]]];
      [eexists; repeat split; eauto .. |].
    rewrite Hnone in Hf. discriminate Hf. }
  destruct Hcase as (g & Hg & Hr & He).
  rewrite (fails_at_unique _ _ _ _ Hg Hf) in *. subst r.
  rewrite Htrace, errors_logged_app, He.
  repeat split; auto; destruct f; simpl; intros; solve [lia | congruence].
Qed.

Lemma start_failure_codes_witness :
  let rw := start_server env_discovery_fails DEFAULT_HW_ADDRESS DEFAULT_NAME
              true AUDIO_DEVICE_HDMI false initial_world in
  fst rw = -2
  /\ errors_logged (trace (snd rw)) = ["Could not initialize dnssd library!"].
Proof.
  intros rw.
  destruct (start_failure_codes env_discovery_fails DEFAULT_HW_ADDRESS DEFAULT_NAME
              true AUDIO_DEVICE_HDMI false initial_world (snd rw) (fst rw)
              DiscoveryInitFailed)
    as (Hr & _ & _ & _ & He & _).
  - reflexivity.
  - vm_compute. reflexivity.
  - split; [exact Hr | exact He].
Defined.

Lemma to_ushort_small port : 0 <= port <= 65535 -> to_ushort port = port.
Proof. intros H. unfold to_ushort. apply Z.mod_small. lia. Qed.

(** No wrap-around in [port + 1]: the operand is promoted to [int]. *)
Lemma int_add_port port : 0 <= port <= 65535 -> int_add port 1 = port + 1.
Proof.
  intros H. unfold int_add, to_int.
  rewrite Z.mod_small by lia. lia.
Qed.

(** The argument [port + 1] as the advertiser receives it. *)
Lemma to_port_param_next port :
  0 <= port <= 65535 ->
  to_port_param (int_add port 1) = (port + 1) mod 65536.
Proof.
  intros H. unfold to_port_param, to_ushort. rewrite int_add_port by exact H.
  reflexivity.
Qed.

(** C4 as stated fails: when the engine's start operation stores the port
    65535, the start succeeds and the companion service is registered on
    port 0, not on 65535 + 1. *)
Lemma companion_port_counterexample :
  let rw := start_server (env_ok 65535) DEFAULT_HW_ADDRESS DEFAULT_NAME
              true AUDIO_DEVICE_HDMI false initial_world in
  fst rw = 0
  /\ advertised (trace (snd rw))
     = [(primary_service, 65535); (companion_service, 0)]
  /\ 0 <> 65535 + 1.
Proof. vm_compute. repeat split; discriminate. Qed.

(** C4 (amended).  After a successful [start_server] the services
    registered with the advertiser are the primary one on the port the
    engine's start operation stored and the companion one on that port
    plus one as a 16-bit port: exactly the port plus one for every port
    below 65535, and 0 for the port 65535. *)
Theorem companion_port_wraps :
  forall (E : env) (hw_addr : list char) (name : string)
         (show_background : bool) (dev : audio_device_t) (low_latency : bool)
         (w w' : world) (port : Z),
    0 <= port <= 65535 ->
    raop_start_port E = port ->
    start_server E hw_addr name show_background dev low_latency w = (0, w') ->
    advertised (trace w')
    = (advertised (trace w)
       ++ [(primary_service, port);
           (companion_service, if port <? 65535 then port + 1 else 0)])%list.
Proof.
  intros E hw_addr name bg dev ll w w' port Hport HE Hrun.
  destruct (start_server_paths _ _ _ _ _ _ _ _ _ Hrun)
    as (added & Htrace & _ & _ & Hpath).
  destruct Hpath as [(_ & Hr & _) | [(_ & Hr & _) | [(_ & Hr & _)
    | [(_ & Hr & _) | (_ & _ & _ & _ & _ & _ & Hadv)]]]];
    try discriminate Hr.
  rewrite Htrace, advertised_app, Hadv, HE.
  rewrite to_ushort_small, to_port_param_next by assumption.
  destruct (Z.ltb_spec port 65535) as [Hlt | Hge].
  - rewrite Z.mod_small by lia. reflexivity.
  - replace port with 65535 by lia. reflexivity.
Qed.

Lemma companion_port_wraps_witness :
  advertised (trace (snd (start_server (env_ok 65534) DEFAULT_HW_ADDRESS
                            DEFAULT_NAME true AUDIO_DEVICE_HDMI false initial_world)))
  = [(primary_service, 65534); (companion_service, 65535)].
Proof.
  apply (companion_port_wraps (env_ok 65534) DEFAULT_HW_ADDRESS DEFAULT_NAME
           true AUDIO_DEVICE_HDMI false initial_world _ 65534).
  - lia.
  - reflexivity.
  - vm_compute. reflexivity.
Defined.

(** C5.  After a successful [start_server] in a process whose audio
    renderer variable is still [NULL] (as it is when [main] calls it), the
    audio renderer is present exactly when the audio device is not
    [AUDIO_DEVICE_NONE]. *)
Theorem audio_present_iff_selected :
  forall (E : env) (hw_addr : list char) (name : string)
         (show_background : bool) (dev : audio_device_t) (low_latency : bool)
         (w w' : world),
    audio_renderer (vars w) = NULL ->
    start_server E hw_addr name show_background dev low_latency w = (0, w') ->
    (audio_renderer (vars w') <> NULL <-> dev <> AUDIO_DEVICE_NONE).
Proof.
  intros E hw_addr name bg dev ll w w' Hinit Hrun.
  destruct (start_server_paths _ _ _ _ _ _ _ _ _ Hrun)
    as (added & _ & _ & _ & Hpath).
  destruct Hpath as [(_ & Hr & _) | [(_ & Hr & _) | [(_ & Hr & _)
    | [(_ & Hr & _) | (Hnone & _ & _ & _ & Hoff & Hon & _)]]]];
    try discriminate Hr.
  destruct (audio_device_eqb dev AUDIO_DEVICE_NONE) eqn:Hdev.
  - apply audio_device_eqb_eq in Hdev.
    rewrite (Hoff Hdev), Hinit. split; intros H; contradiction.
  - pose proof (Hnone AudioRendererInitFailed) as Ha.
    pose proof (Hnone EngineInitFailed) as He.
    pose proof (Hnone VideoRendererInitFailed) as Hv.
    cbn [fails_at] in Ha, He, Hv. rewrite He, Hdev in *. cbn [negb andb] in Ha, Hv.
    rewrite Hv in Ha. cbn [negb andb] in Ha.
    apply audio_device_eqb_neq in Hdev. rewrite (Hon Hdev).
    apply is_null_false in Ha. split; intros _; assumption.
Qed.

Lemma audio_present_iff_selected_witness :
  (audio_renderer (vars world_running) <> NULL
   <-> AUDIO_DEVICE_HDMI <> AUDIO_DEVICE_NONE)
  /\ (audio_renderer
        (vars (snd (start_server (env_ok 7000) DEFAULT_HW_ADDRESS DEFAULT_NAME
                      true AUDIO_DEVICE_NONE false initial_world))) <> NULL
      <-> AUDIO_DEVICE_NONE <> AUDIO_DEVICE_NONE).
Proof.
  split.
  - apply (audio_present_iff_selected (env_ok 7000) DEFAULT_HW_ADDRESS DEFAULT_NAME
             true AUDIO_DEVICE_HDMI false initial_world world_running).
    + reflexivity.
    + vm_compute. reflexivity.
  - apply (audio_present_iff_selected (env_ok 7000) DEFAULT_HW_ADDRESS DEFAULT_NAME
             true AUDIO_DEVICE_NONE false initial_world).
    + reflexivity.
    + vm_compute. reflexivity.
Defined.

(** ** The run loop and the signal handler *)

Lemma termination_signal_handled sig :
  is_termination_signal sig = true -> disposition_of sig = Handled.
Proof.
  unfold is_termination_signal, disposition_of. intros ->. reflexivity.
Qed.

Lemma other_signal_not_handled sig :
  is_termination_signal sig = false -> disposition_of sig <> Handled.
Proof.
  unfold is_termination_signal, disposition_of. intros ->.
  destruct ((1 <=? sig) && (sig <=? 64));
    [destruct (ignored_by_default sig || job_control sig)|]; discriminate.
Qed.

(** The handler changes nothing but [running]. *)
Lemma signal_handler_writes_flag sig w :
  trace (signal_handler sig w) = trace w
  /\ vars (signal_handler sig w)
     = (if is_termination_signal sig then set_running false (vars w) else vars w).
Proof.
  unfold signal_handler, is_termination_signal, exec_void.
  destruct ((sig =? SIGINT) || (sig =? SIGTERM)); split; reflexivity.
Qed.

Lemma signal_handler_stops sig w :
  running (vars w) = false -> running (vars (signal_handler sig w)) = false.
Proof.
  intros H. rewrite (proj2 (signal_handler_writes_flag sig w)).
  destruct (is_termination_signal sig); [reflexivity | exact H].
Qed.

(** Once [main] is past [running = true] and the flag is off, no statement
    and no signal turns it on again. *)
Lemma stopping_is_stable E a p :
  past_start p -> running (vars (now p)) = false ->
  past_start (perform E a p) /\ running (vars (now (perform E a p))) = false.
Proof.
  unfold past_start. intros Hpc Hrun.
  destruct p as [pc0 w]. cbn [at_pc now] in *.
  destruct a as [|sig]; cbn [perform].
  - unfold main_step. cbn [at_pc now].
    destruct pc0; try contradiction; cbn [at_pc now].
    + rewrite Hrun. cbn [at_pc now]. split; [exact I | exact Hrun].
    + split; [exact I|]. exact Hrun.
    + rewrite stop_server_calls. cbn [at_pc now vars].
      split; [exact I | exact Hrun].
    + split; [exact I | exact Hrun].
    + split; [exact I | exact Hrun].
  - unfold deliver. cbn [at_pc now].
    destruct pc0; try contradiction; destruct (disposition_of sig);
      cbn [at_pc now];
      (split; [exact I | first [exact Hrun | apply signal_handler_stops; exact Hrun]]).
Qed.

Lemma stopping_stays E sched :
  forall p,
    past_start p -> running (vars (now p)) = false ->
    running (vars (now (run E sched p))) = false.
Proof.
  induction sched as [|a sched IH]; intros p Hpc Hrun; [exact Hrun|].
  cbn [run]. destruct (stopping_is_stable E a p Hpc Hrun) as [Hpc' Hrun'].
  apply IH; assumption.
Qed.

(** Termination signals delivered in the run loop: the process is where it
    was, with [running] off. *)
Lemma deliver_termination E sigs :
  forall p,
    in_run_loop p = true ->
    sigs <> [] ->
    Forall (fun s => is_termination_signal s = true) sigs ->
    run E (map Signal sigs) p
    = mkProcess (at_pc p)
        (mkWorld (set_running false (vars (now p))) (trace (now p))).
Proof.
  induction sigs as [|s sigs IH]; intros p Hloop Hne Hall; [contradiction|].
  inversion Hall as [|? ? Hs Hrest]; subst.
  assert (Hone : perform E (Signal s) p
                 = mkProcess (at_pc p)
                     (mkWorld (set_running false (vars (now p))) (trace (now p)))).
  { cbn [perform]. unfold deliver. unfold in_run_loop in Hloop.
    rewrite (termination_signal_handled s Hs).
    destruct (signal_handler_writes_flag s (now p)) as [Ht Hv].
    rewrite Hs in Hv.
    destruct (signal_handler s (now p)) as [g t]. cbn [vars trace] in Ht, Hv.
    subst g t. destruct (at_pc p); try discriminate Hloop; reflexivity. }
  cbn [map run]. rewrite Hone.
  destruct sigs as [|s' sigs]; [reflexivity|].
  rewrite IH; [| exact Hloop | discriminate | exact Hrest].
  reflexivity.
Qed.

(** C7.  Termination signals delivered while [main] is in its run loop,
    however many, leave the process where one delivery leaves it: only
    [running] has changed, and it is off.  From then on no statement of
    [main] and no signal turns it on again, whatever the schedule, and
    after three more statements [main] has left the loop, run
    [stop_server] and returned 0. *)
Theorem signal_bridge_settles :
  forall (E : env) (p : process) (sigs : list Z),
    in_run_loop p = true ->
    sigs <> [] ->
    Forall (fun s => is_termination_signal s = true) sigs ->
    let p1 := run E (map Signal sigs) p in
    at_pc p1 = at_pc p
    /\ trace (now p1) = trace (now p)
    /\ vars (now p1) = set_running false (vars (now p))
    /\ running (vars (now p1)) = false
    /\ (forall sched, running (vars (now (run E sched p1))) = false)
    /\ at_pc (run E [Tick; Tick; Tick] p1) = returned 0
    /\ filter is_teardown (trace (now (run E [Tick; Tick; Tick] p1)))
       = (filter is_teardown (trace (now p))
          ++ [ev_raop_destroy (raop (vars (now p)));
              ev_dnssd_unregister_raop (dnssd (vars (now p)));
              ev_dnssd_unregister_airplay (dnssd (vars (now p)));
              ev_audio_renderer_destroy (audio_renderer (vars (now p)));
              ev_video_renderer_destroy (video_renderer (vars (now p)))])%list.
Proof.
  intros E p sigs Hloop Hne Hall p1. subst p1.
  rewrite (deliver_termination E sigs p Hloop Hne Hall).
  cbn [at_pc now vars trace].
  split; [reflexivity|]. split; [reflexivity|]. split; [reflexivity|].
  split; [reflexivity|]. split.
  - intros sched. apply stopping_stays.
    + unfold past_start, in_run_loop in *. cbn [at_pc].
      destruct (at_pc p); try discriminate Hloop; exact I.
    + reflexivity.
  - destruct p as [pc0 [[r0 d ra v a] t]]. unfold in_run_loop in Hloop.
    cbn [at_pc now vars trace] in *.
    destruct pc0; try discriminate Hloop;
      cbn [run perform]; unfold main_step;
      cbn [at_pc now vars running set_running];
      repeat rewrite stop_server_calls;
      cbn [at_pc now vars trace running set_running raop dnssd
           audio_renderer video_renderer exec_void call log snd];
      (split; [reflexivity|]);
      repeat rewrite filter_app; cbn [filter is_teardown];
      repeat rewrite app_nil_r; reflexivity.
Qed.

Lemma signal_bridge_settles_witness :
  let p := mkProcess at_sleep
             (mkWorld (set_running true (vars world_running)) (trace world_running)) in
  let p1 := run (env_ok 7000) (map Signal [SIGINT; SIGTERM; SIGINT]) p in
  running (vars (now p1)) = false
  /\ (forall sched, running (vars (now (run (env_ok 7000) sched p1))) = false)
  /\ at_pc (run (env_ok 7000) [Tick; Tick; Tick] p1) = returned 0.
Proof.
  intros p p1.
  destruct (signal_bridge_settles (env_ok 7000) p [SIGINT; SIGTERM; SIGINT])
    as (_ & _ & _ & Hoff & Hstay & Hret & _).
  - reflexivity.
  - discriminate.
  - repeat constructor.
  - split; [exact Hoff|]. split; [exact Hstay | exact Hret].
Defined.

(** ** Runs on concrete inputs *)

Example stol_prefix : Std.stol 32 "0x1f" 16 = Returns 31.
Proof. reflexivity. Qed.

Example stol_negative : Std.stol 32 " -ff:" 16 = Returns (-255).
Proof. reflexivity. Qed.

Example stol_no_digit : Std.stol 64 ":48" 16 = Throws invalid_argument.
Proof. reflexivity. Qed.

Example stol_too_large_32 : Std.stol 32 "b827eb010203" 16 = Throws out_of_range.
Proof. reflexivity. Qed.

Example stol_fits_64 : Std.stol 64 "b827eb010203" 16 = Returns 202481585947139.
Proof. reflexivity. Qed.

Example parse_hw_addr_hyphens :
  parse_hw_addr 32 "B8-27-EB-01-02-03" [] = Returns [184; 39; 235; 1; 2; 3].
Proof. reflexivity. Qed.

Example parse_hw_addr_short :
  parse_hw_addr 32 "b8:27" [] = Returns [184; 39].
Proof. reflexivity. Qed.

Example resolve_hw_addr_fallback :
  resolve_hw_addr 32 "" = Returns DEFAULT_HW_ADDRESS.
Proof. reflexivity. Qed.

Example parse_args_all :
  parse_args ["rpiplay"; "-n"; "Test"; "-a"; "analog"; "-b"; "-l"]
  = Returns (Parsed (mkOptions false "Test" AUDIO_DEVICE_ANALOG true)).
Proof. reflexivity. Qed.

Example parse_args_unknown_device :
  parse_args ["rpiplay"; "-a"; "spdif"]
  = Returns (Parsed (mkOptions true "RPiPlay" AUDIO_DEVICE_NONE false)).
Proof. reflexivity. Qed.

Example parse_args_option_as_value :
  parse_args ["rpiplay"; "-n"; "-n"]
  = Returns (Parsed (mkOptions true "-n" AUDIO_DEVICE_HDMI false)).
Proof. reflexivity. Qed.

Example parse_args_help :
  parse_args ["rpiplay"; "-b"; "-v"; "-n"] = Returns (Exited "rpiplay" 0).
Proof. reflexivity. Qed.

(** A whole run: start, two turns of the loop, a signal, shutdown. *)
Example main_runs_and_stops :
  match main_entry 32 ["rpiplay"; "-n"; "Test"] "b8:27:eb:01:02:03" with
  | Returns p =>
      let q := run (env_ok 7000)
                 [Tick; Tick; Tick; Tick; Tick; Signal SIGTERM; Tick; Tick; Tick] p in
      at_pc q = returned 0
      /\ advertised (trace (now q)) = [(primary_service, 7000); (companion_service, 7001)]
      /\ filter is_teardown (trace (now q))
         = [ev_raop_destroy 1; ev_dnssd_unregister_raop 5;
            ev_dnssd_unregister_airplay 5; ev_audio_renderer_destroy 4;
            ev_video_renderer_destroy 3]
  | _ => False
  end.
Proof. vm_compute. repeat split. Qed.

(** A failed start makes [main] return 1. *)
Example main_fails :
  at_pc (run env_audio_fails [Tick]
           (mkProcess (at_start_server DEFAULT_HW_ADDRESS default_options) initial_world))
  = returned 1.
Proof. reflexivity. Qed.

(** * Further properties *)

(** ** The argument loop, argument by argument *)

Lemma skipn_nth_cons (l : list string) (i : nat) :
  (i < List.length l)%nat -> skipn i l = nth i l "" :: skipn (S i) l.
Proof.
  revert i. induction l as [|x l IH]; intros i Hi; [simpl in Hi; lia|].
  destruct i as [|i]; [reflexivity|].
  simpl in Hi. cbn [skipn nth]. apply IH. lia.
Qed.

(** The loop from index [i] does what [parse_list] does on the arguments
    from [i] on. *)
Lemma parse_args_loop_list (argv : list string) (fuel : nat) :
  forall i o,
    (argc argv - i < fuel)%nat ->
    parse_args_loop argv fuel i o
    = Returns (parse_list (arg_at argv 0) (skipn i argv) o).
Proof.
  induction fuel as [|fuel IH]; intros i o Hf; [lia|].
  cbn [parse_args_loop]. unfold parse_arg. unfold argc in *.
  destruct (Nat.ltb_spec i (List.length argv)) as [Hlt | Hge].
  - rewrite (skipn_nth_cons argv i Hlt).
    fold (arg_at argv i). cbn [parse_list].
    assert (Hlast : forall o', (i = List.length argv - 1)%nat ->
              parse_args_loop argv fuel (i + 1) o' = Returns (Parsed o')
              /\ skipn (S i) argv = []).
    { intros o' Hi. split.
      - rewrite IH by lia. rewrite skipn_all2 by lia. reflexivity.
      - apply skipn_all2. lia. }
    assert (Hnext : forall o', parse_args_loop argv fuel (i + 1) o'
              = Returns (parse_list (arg_at argv 0) (skipn (S i) argv) o')).
    { intros o'. rewrite IH by lia.
      replace (i + 1)%nat with (S i) by lia. reflexivity. }
    assert (Hvalue : forall o', (i <> List.length argv - 1)%nat ->
              skipn (S i) argv = arg_at argv (i + 1) :: skipn (S (S i)) argv
              /\ parse_args_loop argv fuel (i + 1 + 1) o'
                 = Returns (parse_list (arg_at argv 0) (skipn (S (S i)) argv) o')).
    { intros o' Hi. split.
      - rewrite (skipn_nth_cons argv (S i)) by lia.
        unfold arg_at. replace (i + 1)%nat with (S i) by lia. reflexivity.
      - rewrite IH by lia.
        replace (i + 1 + 1)%nat with (S (S i)) by lia. reflexivity. }
    destruct (String.eqb (arg_at argv i) "-n").
    { destruct (Nat.eqb_spec i (List.length argv - 1)) as [Hi | Hi].
      - destruct (Hlast o Hi) as [-> ->]. reflexivity.
      - destruct (Hvalue (set_server_name (arg_at argv (i + 1)) o) Hi) as [-> ->].
        reflexivity. }
    destruct (String.eqb (arg_at argv i) "-b"); [apply Hnext|].
    destruct (String.eqb (arg_at argv i) "-a").
    { destruct (Nat.eqb_spec i (List.length argv - 1)) as [Hi | Hi].
      - destruct (Hlast o Hi) as [-> ->]. reflexivity.
      - match goal with
        | |- parse_args_loop _ _ _ ?o' = _ => destruct (Hvalue o' Hi) as [-> ->]
        end.
        reflexivity. }
    destruct (String.eqb (arg_at argv i) "-l"); [apply Hnext|].
    destruct (String.eqb (arg_at argv i) "-h" || String.eqb (arg_at argv i) "-v");
      [reflexivity | apply Hnext].
  - rewrite skipn_all2 by lia. reflexivity.
Qed.

Lemma parse_args_list (name : string) (args : list string) :
  parse_args (name :: args) = Returns (parse_list name args default_options).
Proof.
  unfold parse_args, parse_args_from.
  rewrite parse_args_loop_list by (unfold argc; simpl; lia). reflexivity.
Qed.

(** [argv[0]] only shows in the name that [print_info] is given. *)
Lemma parse_list_name (a b : string) (n : nat) :
  forall args o,
    (List.length args <= n)%nat ->
    parse_list b args o
    = match parse_list a args o with
      | Exited _ status => Exited b status
      | Parsed o' => Parsed o'
      end.
Proof.
  induction n as [|n IH]; intros args o Hn.
  - destruct args; [reflexivity | simpl in Hn; lia].
  - destruct args as [|arg rest]; [reflexivity|].
    simpl in Hn. cbn [parse_list].
    destruct (String.eqb arg "-n").
    { destruct rest as [|v rest']; [reflexivity|]. apply IH. simpl in Hn. lia. }
    destruct (String.eqb arg "-b"); [apply IH; lia|].
    destruct (String.eqb arg "-a").
    { destruct rest as [|v rest']; [reflexivity|]. apply IH. simpl in Hn. lia. }
    destruct (String.eqb arg "-l"); [apply IH; lia|].
    destruct (String.eqb arg "-h" || String.eqb arg "-v"); [reflexivity|].
    apply IH. lia.
Qed.

(** X1.  The first element of [argv] is never read as an option: with
    another program name the arguments parse to the same options, and a
    help exit differs only in the name that is printed. *)
Theorem program_name_is_not_parsed :
  forall (a b : string) (args : list string),
    parse_args (b :: args)
    = match parse_args (a :: args) with
      | Returns (Exited _ status) => Returns (Exited b status)
      | r => r
      end.
Proof.
  intros a b args. rewrite !parse_args_list.
  rewrite (parse_list_name a b (List.length args) args default_options) by lia.
  destruct (parse_list a args default_options); reflexivity.
Qed.

Lemma parse_list_toggles (name : string) (args : list string) :
  forallb is_plain args = true ->
  forall o,
    parse_list name args o
    = Parsed (mkOptions
                (xorb (show_background o) (Nat.odd (count_arg "-b" args)))
                (server_name o) (audio_device o)
                (xorb (low_latency o) (Nat.odd (count_arg "-l" args)))).
Proof.
  unfold count_arg.
  induction args as [|arg rest IH]; intros Hplain o.
  - cbn. rewrite !xorb_false_r. destruct o; reflexivity.
  - cbn [forallb] in Hplain. apply andb_prop in Hplain. destruct Hplain as [Harg Hrest].
    unfold is_plain in Harg. apply negb_true_iff in Harg.
    repeat (apply orb_false_elim in Harg; destruct Harg as [Harg ?]).
    cbn [parse_list filter].
    repeat match goal with
           | H : String.eqb arg _ = false |- _ => rewrite H; clear H
           end.
    cbn [orb].
    destruct (String.eqb_spec arg "-b") as [Hb | Hb].
    + subst arg. rewrite String.eqb_refl.
      change (String.eqb "-l" "-b") with false. cbv iota.
      rewrite IH by exact Hrest.
      cbn [show_background server_name audio_device low_latency
           set_show_background List.length].
      rewrite Nat.odd_succ, <- Nat.negb_odd.
      f_equal. f_equal.
      destruct (show_background o),
        (Nat.odd (List.length (filter (String.eqb "-b") rest))); reflexivity.
    + destruct (String.eqb_spec arg "-l") as [Hl | Hl].
      * subst arg. rewrite String.eqb_refl.
        change (String.eqb "-b" "-l") with false. cbv iota.
        rewrite IH by exact Hrest.
        cbn [show_background server_name audio_device low_latency
             set_low_latency List.length].
        rewrite Nat.odd_succ, <- Nat.negb_odd.
        f_equal. f_equal.
        destruct (low_latency o),
          (Nat.odd (List.length (filter (String.eqb "-l") rest))); reflexivity.
      * rewrite IH by exact Hrest.
        assert (Hb' : String.eqb "-b" arg = false)
          by (apply String.eqb_neq; congruence).
        assert (Hl' : String.eqb "-l" arg = false)
          by (apply String.eqb_neq; congruence).
        rewrite Hb', Hl'. reflexivity.
Qed.

(** X2.  [-b] and [-l] are toggles.  When no argument is [-n], [-a], [-h]
    or [-v], parsing ends normally; the background is shown exactly when
    [-b] occurs an even number of times and low latency is on exactly when
    [-l] occurs an odd number of times; name and audio device are the
    default ones. *)
Theorem flags_toggle :
  forall (name : string) (args : list string),
    forallb is_plain args = true ->
    parse_args (name :: args)
    = Returns (Parsed (mkOptions (Nat.even (count_arg "-b" args))
                         DEFAULT_NAME DEFAULT_AUDIO_DEVICE
                         (Nat.odd (count_arg "-l" args)))).
Proof.
  intros name args Hplain.
  rewrite parse_args_list, (parse_list_toggles name args Hplain).
  cbn [default_options show_background server_name audio_device low_latency
       DEFAULT_SHOW_BACKGROUND DEFAULT_LOW_LATENCY xorb].
  rewrite <- Nat.negb_odd.
  destruct (Nat.odd (count_arg "-b" args)), (Nat.odd (count_arg "-l" args)); reflexivity.
Qed.

Lemma flags_toggle_witness :
  parse_args ["rpiplay"; "-b"; "--x"; "-l"; "-b"; "-l"; "-l"]
  = Returns (Parsed (mkOptions true "RPiPlay" AUDIO_DEVICE_HDMI true)).
Proof.
  apply (flags_toggle "rpiplay" ["-b"; "--x"; "-l"; "-b"; "-l"; "-l"]).
  reflexivity.
Defined.

Lemma returned_is_final E sched status w :
  run E sched (mkProcess (returned status) w) = mkProcess (returned status) w.
Proof.
  induction sched as [|[|sig] sched IH]; [reflexivity | exact IH | exact IH].
Qed.

(** X3.  When the loop finds [-h] or [-v] the process prints the usage
    for [argv[0]] and exits with status 0 at once: what follows on the
    command line is not read, the address files are not read, and no call
    to any subsystem is ever made. *)
Theorem help_exits_at_once :
  forall (long_bits : Z) (argv : list string) (fs : netfs) (i : nat) (o : options),
    reaches argv i o ->
    (i < argc argv)%nat ->
    arg_at argv i = "-h" \/ arg_at argv i = "-v" ->
    parse_args argv = Returns (Exited (arg_at argv 0) 0)
    /\ main_startup long_bits argv fs
       = Returns (mkProcess (returned 0) initial_world)
    /\ forall E sched,
         run E sched (mkProcess (returned 0) initial_world)
         = mkProcess (returned 0) initial_world.
Proof.
  intros long_bits argv fs i o Hr Hlt Hopt.
  assert (Hparse : parse_args argv = Returns (Exited (arg_at argv 0) 0)).
  { rewrite (reaches_parse_args _ _ _ Hr).
    unfold parse_args_from. cbn [parse_args_loop].
    destruct (Nat.ltb_spec i (argc argv)); [|lia].
    unfold parse_arg. destruct Hopt as [-> | ->]; reflexivity. }
  split; [exact Hparse|]. split.
  - unfold main_startup, main_entry. rewrite Hparse. reflexivity.
  - intros E sched. apply returned_is_final.
Qed.

Lemma help_exits_at_once_witness :
  parse_args ["rpiplay"; "-l"; "-v"; "-n"] = Returns (Exited "rpiplay" 0)
  /\ main_startup 32 ["rpiplay"; "-l"; "-v"; "-n"] (mkNetfs (Some "zz") None)
     = Returns (mkProcess (returned 0) initial_world).
Proof.
  destruct (help_exits_at_once 32 ["rpiplay"; "-l"; "-v"; "-n"]
              (mkNetfs (Some "zz") None) 2
              (set_low_latency true default_options))
    as (Hp & Hm & _).
  - apply (reaches_next _ 1 default_options 2);
      [apply reaches_first | vm_compute; lia | reflexivity].
  - vm_compute. lia.
  - right. reflexivity.
  - split; [exact Hp | exact Hm].
Defined.

(** X4.  When [-n] or [-a] is not the last argument, the argument after
    it is its value whatever it is, an option such as [-h] included: the
    loop goes on two arguments further.  [-n] sets the name to that
    argument; [-a] sets the audio device to HDMI for exactly "hdmi", to
    ANALOG for exactly "analog" and to NONE for anything else.  The other
    settings are unchanged. *)
Theorem option_value_is_consumed :
  forall (argv : list string) (i : nat) (o : options),
    reaches argv i o ->
    (i + 1 < argc argv)%nat ->
    arg_at argv i = "-n" \/ arg_at argv i = "-a" ->
    exists o',
      reaches argv (i + 2) o'
      /\ parse_args argv = parse_args_from argv (i + 2) o'
      /\ show_background o' = show_background o
      /\ low_latency o' = low_latency o
      /\ (arg_at argv i = "-n" ->
          server_name o' = arg_at argv (i + 1)
          /\ audio_device o' = audio_device o)
      /\ (arg_at argv i = "-a" ->
          server_name o' = server_name o
          /\ (audio_device o' = AUDIO_DEVICE_HDMI <-> arg_at argv (i + 1) = "hdmi")
          /\ (audio_device o' = AUDIO_DEVICE_ANALOG <-> arg_at argv (i + 1) = "analog")
          /\ (audio_device o' = AUDIO_DEVICE_NONE
              <-> arg_at argv (i + 1) <> "hdmi" /\ arg_at argv (i + 1) <> "analog")).
Proof.
  intros argv i o Hr Hlt Hopt.
  assert (Hnl : (i =? argc argv - 1)%nat = false) by (apply Nat.eqb_neq; lia).
  assert (Hstep : exists o', parse_arg argv i o = Next (i + 2) o'
            /\ show_background o' = show_background o
            /\ low_latency o' = low_latency o
            /\ (arg_at argv i = "-n" ->
                server_name o' = arg_at argv (i + 1)
                /\ audio_device o' = audio_device o)
            /\ (arg_at argv i = "-a" ->
                server_name o' = server_name o
                /\ (audio_device o' = AUDIO_DEVICE_HDMI <-> arg_at argv (i + 1) = "hdmi")
                /\ (audio_device o' = AUDIO_DEVICE_ANALOG
                    <-> arg_at argv (i + 1) = "analog")
                /\ (audio_device o' = AUDIO_DEVICE_NONE
                    <-> arg_at argv (i + 1) <> "hdmi"
                        /\ arg_at argv (i + 1) <> "analog"))).
  { unfold parse_arg. rewrite Hnl.
    replace (i + 1 + 1)%nat with (i + 2)%nat by lia.
    destruct Hopt as [Hn | Ha]; rewrite Hn || rewrite Ha; cbn [String.eqb Ascii.eqb Bool.eqb andb];
      eexists; (split; [reflexivity|]); cbn [show_background low_latency server_name
        audio_device set_server_name set_audio_device];
      (split; [reflexivity|]); (split; [reflexivity|]).
    - split; [intros _; split; reflexivity | intros H; discriminate H].
    - split; [intros H; discriminate H | intros _].
      split; [reflexivity|].
      destruct (String.eqb_spec (arg_at argv (i + 1)) "hdmi") as [Hh | Hh].
      + rewrite Hh. repeat split; intros; try reflexivity; try discriminate;
          try (exfalso; intuition congruence).
      + destruct (String.eqb_spec (arg_at argv (i + 1)) "analog") as [Han | Han].
        * rewrite Han. repeat split; intros; try reflexivity; try discriminate;
            try (exfalso; intuition congruence).
        * repeat split; intros; try reflexivity; try discriminate;
            try assumption; try (exfalso; intuition congruence). }
  destruct Hstep as (o' & Hstep & Hrest).
  exists o'. split; [|split; [|exact Hrest]].
  - apply (reaches_next argv i o (i + 2) o' Hr); [lia | exact Hstep].
  - rewrite (reaches_parse_args _ _ _ Hr).
    apply parse_args_from_step; [lia | exact Hstep].
Qed.

Lemma option_value_is_consumed_witness :
  exists o',
    reaches ["rpiplay"; "-n"; "-h"; "-a"; "HDMI"] 3 o'
    /\ server_name o' = "-h"
    /\ parse_args ["rpiplay"; "-n"; "-h"; "-a"; "HDMI"]
       = Returns (Parsed (mkOptions true "-h" AUDIO_DEVICE_NONE false)).
Proof.
  destruct (option_value_is_consumed ["rpiplay"; "-n"; "-h"; "-a"; "HDMI"] 1
              default_options)
    as (o' & Hr & _ & _ & _ & Hn & _).
  - apply reaches_first.
  - vm_compute. lia.
  - left. reflexivity.
  - exists o'. split; [exact Hr|]. split; [apply Hn; reflexivity | reflexivity].
Defined.

(** ** Reading and resolving the hardware address *)

Lemma skip_space_blank ws s :
  all_space ws = true -> Std.skip_space (ws ++ s) = Std.skip_space s.
Proof.
  induction ws as [|c ws IH]; intros H; [reflexivity|].
  cbn [all_space] in H. apply andb_prop in H. destruct H as [Hc Hws].
  cbn [append Std.skip_space]. rewrite Hc. apply IH. exact Hws.
Qed.

Lemma take_token_word tok tail :
  has_space tok = false -> token_ends tail = true ->
  take_token (tok ++ tail) = tok.
Proof.
  induction tok as [|c tok IH]; intros Htok Htail.
  - cbn [append]. destruct tail as [|c tail]; [reflexivity|].
    cbn [token_ends] in Htail. cbn [take_token]. rewrite Htail. reflexivity.
  - cbn [has_space] in Htok. apply orb_false_elim in Htok. destruct Htok as [Hc Htok].
    cbn [append take_token]. rewrite Hc. f_equal. apply IH; assumption.
Qed.

(** [>>] reads the first word of the content. *)
Lemma read_token_word ws tok tail :
  all_space ws = true -> tok <> EmptyString ->
  has_space tok = false -> token_ends tail = true ->
  read_token (ws ++ tok ++ tail) = tok.
Proof.
  intros Hws Hne Htok Htail. unfold read_token.
  rewrite skip_space_blank by exact Hws.
  destruct tok as [|c tok]; [contradiction|].
  pose proof Htok as Htok'.
  cbn [has_space] in Htok'. apply orb_false_elim in Htok'. destruct Htok' as [Hc _].
  cbn [append Std.skip_space]. rewrite Hc.
  apply (take_token_word (String c tok) tail Htok Htail).
Qed.

Lemma read_token_blank ws : all_space ws = true -> read_token ws = EmptyString.
Proof.
  unfold read_token. induction ws as [|c ws IH]; intros H; [reflexivity|].
  cbn [all_space] in H. apply andb_prop in H. destruct H as [Hc Hws].
  cbn [Std.skip_space]. rewrite Hc. apply IH. exact Hws.
Qed.

(** X5.  [find_mac] returns the first word of the wired interface's
    address file when that file can be opened, and of the wireless
    interface's file only when the wired one cannot be opened: leading
    white space is skipped and the word ends at the next white space, so
    the end of line is not part of it.  The wireless file is not looked at
    when the wired one opens. *)
Theorem find_mac_first_word :
  forall (fs : netfs) (ws tok tail : string),
    all_space ws = true ->
    tok <> EmptyString ->
    has_space tok = false ->
    token_ends tail = true ->
    eth0_address fs = Some (ws ++ tok ++ tail)
    \/ (eth0_address fs = None /\ wlan0_address fs = Some (ws ++ tok ++ tail)) ->
    find_mac fs = tok.
Proof.
  intros fs ws tok tail Hws Hne Htok Htail Hfile. unfold find_mac.
  destruct Hfile as [-> | [-> ->]]; apply read_token_word; assumption.
Qed.

Lemma find_mac_first_word_witness :
  find_mac (mkNetfs (Some (" " ++ "b8:27:eb:01:02:03" ++ String "010" "junk"))
              (Some "00:11:22:33:44:55"))
  = "b8:27:eb:01:02:03".
Proof.
  apply (find_mac_first_word _ " " "b8:27:eb:01:02:03" (String "010" "junk")).
  - reflexivity.
  - discriminate.
  - reflexivity.
  - reflexivity.
  - left. reflexivity.
Defined.

(** X6.  The fixed default address is used when neither address file can
    be opened, and also when the file that opens holds no word.  A wired
    file that opens but is blank is not made up for by the wireless file,
    whatever it holds. *)
Theorem default_address_fallback :
  forall (long_bits : Z) (fs : netfs) (ws : string),
    all_space ws = true ->
    eth0_address fs = Some ws
    \/ (eth0_address fs = None
        /\ (wlan0_address fs = None \/ wlan0_address fs = Some ws)) ->
    find_mac fs = EmptyString
    /\ resolve_hw_addr long_bits (find_mac fs) = Returns DEFAULT_HW_ADDRESS.
Proof.
  intros long_bits fs ws Hws Hfile.
  assert (Hmac : find_mac fs = EmptyString).
  { unfold find_mac.
    destruct Hfile as [-> | [-> [-> | ->]]];
      [apply read_token_blank; exact Hws | reflexivity
      | apply read_token_blank; exact Hws]. }
  split; [exact Hmac|]. rewrite Hmac. reflexivity.
Qed.

Lemma default_address_fallback_witness :
  resolve_hw_addr 32
    (find_mac (mkNetfs (Some (String "010" "")) (Some "00:11:22:33:44:55")))
  = Returns DEFAULT_HW_ADDRESS.
Proof.
  apply (default_address_fallback 32
           (mkNetfs (Some (String "010" "")) (Some "00:11:22:33:44:55"))
           (String "010" "")).
  - reflexivity.
  - left. reflexivity.
Defined.

(** The text of a byte is a pair of hexadecimal digits that denotes it. *)
Lemma hex_digit_char_value d :
  0 <= d < 16 ->
  is_hex (hex_digit_char d) = true /\ hex_value (hex_digit_char d) = d
  /\ Std.isspace (hex_digit_char d) = false.
Proof.
  intros H.
  assert (Hc : d = 0 \/ d = 1 \/ d = 2 \/ d = 3 \/ d = 4 \/ d = 5 \/ d = 6 \/ d = 7
               \/ d = 8 \/ d = 9 \/ d = 10 \/ d = 11 \/ d = 12 \/ d = 13 \/ d = 14
               \/ d = 15) by lia.
  repeat (destruct Hc as [-> | Hc]; [repeat split; reflexivity|]).
  subst d. repeat split; reflexivity.
Qed.

Lemma byte_pair_value b :
  is_byte b = true ->
  is_hex_pair (byte_pair b) = true /\ pair_value (byte_pair b) = b
  /\ has_space (pair_text (byte_pair b)) = false.
Proof.
  unfold is_byte. intros H. apply andb_prop in H. destruct H as [H0 H1].
  apply Z.leb_le in H0. apply Z.ltb_lt in H1.
  assert (Hq : 0 <= b / 16 < 16)
    by (split; [apply Z.div_pos; lia | apply Z.div_lt_upper_bound; lia]).
  assert (Hr : 0 <= b mod 16 < 16) by (apply Z.mod_pos_bound; lia).
  destruct (hex_digit_char_value _ Hq) as (Hq1 & Hq2 & Hq3).
  destruct (hex_digit_char_value _ Hr) as (Hr1 & Hr2 & Hr3).
  unfold is_hex_pair, pair_value, pair_text, byte_pair. cbn [fst snd has_space].
  rewrite Hq1, Hr1, Hq2, Hr2, Hq3, Hr3.
  repeat split. pose proof (Z.div_mod b 16). lia.
Qed.

Lemma has_space_app s t : has_space (s ++ t) = has_space s || has_space t.
Proof.
  induction s as [|c s IH]; [reflexivity|].
  cbn [append has_space]. rewrite IH. apply orb_assoc.
Qed.

Lemma address_text_facts bs :
  forallb is_byte bs = true ->
  Forall (fun p => is_hex_pair p = true) (map byte_pair bs)
  /\ map pair_value (map byte_pair bs) = bs
  /\ has_space (delimited ":" (map byte_pair bs)) = false.
Proof.
  induction bs as [|b bs IH]; intros H; [repeat split; constructor|].
  cbn [forallb] in H. apply andb_prop in H. destruct H as [Hb Hbs].
  destruct (byte_pair_value b Hb) as (Hp & Hv & Hs).
  destruct (IH Hbs) as (IH1 & IH2 & IH3).
  split; [constructor; assumption|]. split; [cbn [map]; congruence|].
  cbn [map]. destruct bs as [|b' bs]; [exact Hs|].
  change (delimited ":" (byte_pair b :: map byte_pair (b' :: bs)))
    with (pair_text (byte_pair b) ++ String ":" (delimited ":" (map byte_pair (b' :: bs)))).
  rewrite has_space_app, Hs. cbn [has_space orb].
  rewrite IH3. reflexivity.
Qed.

(** X7.  Reading and parsing undo the kernel's formatting: when the
    address file that [find_mac] opens holds the bytes [bs] as two-digit
    hexadecimal numbers with colons between them and a newline at the end,
    the address [main] resolves is [bs], for any number of bytes. *)
Theorem address_file_round_trip :
  forall (long_bits : Z) (bs : list Z) (fs : netfs),
    32 <= long_bits ->
    bs <> [] ->
    forallb is_byte bs = true ->
    eth0_address fs = Some (address_file bs)
    \/ (eth0_address fs = None /\ wlan0_address fs = Some (address_file bs)) ->
    resolve_hw_addr long_bits (find_mac fs) = Returns bs.
Proof.
  intros long_bits bs fs Hb Hne Hbytes Hfile.
  destruct (address_text_facts bs Hbytes) as (Hpairs & Hvals & Hspace).
  assert (Htext : delimited ":" (map byte_pair bs) <> EmptyString).
  { destruct bs as [|b [|b' bs]]; [contradiction | discriminate | discriminate]. }
  assert (Hmac : find_mac fs = delimited ":" (map byte_pair bs)).
  { unfold find_mac.
    destruct Hfile as [-> | [-> ->]];
      apply (read_token_word EmptyString _ (String "010" EmptyString));
      solve [reflexivity | exact Htext | exact Hspace]. }
  rewrite Hmac. unfold resolve_hw_addr.
  destruct (String.eqb_spec (delimited ":" (map byte_pair bs)) "") as [He | _];
    [contradiction|].
  unfold parse_hw_addr.
  assert (Hlen : (List.length (map byte_pair bs)
                  < S (String.length (delimited ":" (map byte_pair bs))))%nat).
  { pose proof (delimited_length ":" (map byte_pair bs)). lia. }
  pose proof (parse_hw_addr_loop_delimited long_bits Hb ":" (map byte_pair bs)
                eq_refl Hpairs EmptyString [] _ Hlen) as Hloop.
  cbn [append String.length app] in Hloop.
  rewrite Hloop, Hvals. reflexivity.
Qed.

Lemma address_file_round_trip_witness :
  resolve_hw_addr 32
    (find_mac (mkNetfs None (Some (address_file [184; 39; 235; 0; 255; 16]))))
  = Returns [184; 39; 235; 0; 255; 16].
Proof.
  apply (address_file_round_trip 32 [184; 39; 235; 0; 255; 16]).
  - lia.
  - discriminate.
  - reflexivity.
  - right. split; reflexivity.
Defined.

Lemma to_char_is_byte v : is_byte (to_char v) = true.
Proof.
  unfold is_byte, to_char. change 255 with (Z.ones 8).
  rewrite Z.land_ones by lia.
  pose proof (Z.mod_pos_bound v (2 ^ 8) ltac:(lia)) as H.
  change (2 ^ 8) with 256 in *.
  apply andb_true_intro. split; [apply Z.leb_le | apply Z.ltb_lt]; lia.
Qed.

Lemma parse_hw_addr_loop_appends long_bits str fuel :
  forall i hw,
    (String.length str - i < fuel)%nat ->
    forallb (converts long_bits str)
      (offsets i (ceil_div3 (String.length str - i))) = true ->
    exists vs,
      parse_hw_addr_loop long_bits fuel str i hw = Returns (hw ++ vs)%list
      /\ List.length vs = ceil_div3 (String.length str - i)
      /\ forallb is_byte vs = true.
Proof.
  induction fuel as [|fuel IH]; intros i hw Hf Hall; [lia|].
  cbn [parse_hw_addr_loop].
  destruct (Nat.ltb_spec i (String.length str)) as [Hlt | Hge].
  - rewrite substr_in_range by lia. cbn [obind].
    rewrite (ceil_div3_step _ i Hlt) in Hall |- *.
    cbn [offsets forallb] in Hall. apply andb_prop in Hall.
    destruct Hall as [Hc Hrest]. unfold converts in Hc.
    destruct (Std.stol long_bits (Std.drop i str) 16) as [v| |]; try discriminate.
    cbn [obind].
    destruct (IH (i + 3)%nat (hw ++ [to_char v])%list) as (vs & Hrun & Hlen & Hby);
      [lia | exact Hrest |].
    exists (to_char v :: vs). split; [|split].
    + rewrite Hrun, <- app_assoc. reflexivity.
    + cbn [List.length]. congruence.
    + cbn [forallb]. rewrite to_char_is_byte, Hby. reflexivity.
  - exists []. rewrite ceil_div3_zero by lia.
    split; [rewrite app_nil_r; reflexivity | split; reflexivity].
Qed.

(** X8.  [parse_hw_addr] only appends: when every conversion succeeds the
    vector it leaves is the vector it was given followed by one element per
    three characters of the text, and each new element is a byte, whatever
    numbers the conversions read. *)
Theorem parse_hw_addr_appends_bytes :
  forall (long_bits : Z) (s : string) (hw : list char),
    all_convert long_bits s = true ->
    exists vs,
      parse_hw_addr long_bits s hw = Returns (hw ++ vs)%list
      /\ List.length vs = ceil_div3 (String.length s)
      /\ forallb is_byte vs = true.
Proof.
  intros long_bits s hw Hall. unfold parse_hw_addr, all_convert in *.
  destruct (parse_hw_addr_loop_appends long_bits s (S (String.length s)) 0%nat hw)
    as (vs & Hrun & Hlen & Hby).
  - lia.
  - rewrite Nat.sub_0_r. exact Hall.
  - rewrite Nat.sub_0_r in Hlen. exists vs. auto.
Qed.

Lemma parse_hw_addr_appends_bytes_witness :
  exists vs,
    parse_hw_addr 64 "b827eb010203" [1; 2] = Returns ([1; 2] ++ vs)%list
    /\ List.length vs = 4%nat
    /\ forallb is_byte vs = true.
Proof.
  apply (parse_hw_addr_appends_bytes 64 "b827eb010203" [1; 2]).
  vm_compute. reflexivity.
Defined.

(** ** More on [start_server], [stop_server] and the callbacks *)

(** Drops the cases in which one test has two outcomes. *)
Ltac prune_paths :=
  try match goal with
      | H : true = false |- _ => discriminate H
      | H : false = true |- _ => discriminate H
      end.

(** What [start_server] has set going and advertised, path by path. *)
Lemma start_server_effects E hw_addr name bg dev ll w r w' :
  start_server E hw_addr name bg dev ll w = (r, w') ->
  exists added,
    trace w' = (trace w ++ added)%list
    /\ running (vars w') = running (vars w)
    /\ ((r = -1
         /\ advertised added = []
         /\ filter is_start added = []
         /\ dnssd (vars w') = dnssd (vars w))
        \/ (r = -2
            /\ advertised added = []
            /\ filter is_start added = start_calls (vars w')
            /\ dnssd (vars w') = dnssd_init_result E)
        \/ (r = 0
            /\ filter is_start added = start_calls (vars w')
            /\ dnssd (vars w') = dnssd_init_result E)).
Proof.
  destruct w as [[run d r0 v a] t].
  run_server. split_tests.
  all: prune_paths.
  all: intros Hrun; apply pair_equal_spec in Hrun; destruct Hrun as [Hr Hw];
    subst r w'; cbn [vars trace raop video_renderer audio_renderer dnssd running];
    eexists; split; [repeat apply snoc_added; apply nil_added|];
    split; [reflexivity|]; unfold start_calls;
    cbn [vars trace raop video_renderer audio_renderer dnssd running].
  all: lazymatch goal with
       | |- (-1 = -1 /\ _) \/ _ => left
       | |- _ \/ (-2 = -2 /\ _) \/ _ => right; left
       | |- _ => right; right
       end; repeat split;
       try reflexivity;
       match goal with
       | |- ?lhs = _ =>
           let l := fresh "l" in
           set (l := lhs);
           repeat match goal with
                  | H : ?b = _ |- context [?b] => rewrite H
                  end;
           subst l; reflexivity
       end.
Qed.

(** X9.  [start_server] returns 0, -1 or -2, and 0 exactly when no step
    fails: the engine and the video renderer are constructed, the audio
    renderer is constructed unless the device is NONE, and the advertiser
    reports no error.  A failed start registers no service, and no start
    touches the [running] flag. *)
Theorem start_succeeds_iff_no_step_fails :
  forall (E : env) (hw_addr : list char) (name : string)
         (show_background : bool) (dev : audio_device_t) (low_latency : bool)
         (w w' : world) (r : Z),
    start_server E hw_addr name show_background dev low_latency w = (r, w') ->
    (r = 0 \/ r = -1 \/ r = -2)
    /\ (r = 0 <-> forall f, fails_at E dev f = false)
    /\ (r <> 0 -> advertised (trace w') = advertised (trace w))
    /\ running (vars w') = running (vars w).
Proof.
  intros E hw_addr name bg dev ll w w' r Hrun.
  destruct (start_server_paths _ _ _ _ _ _ _ _ _ Hrun)
    as (added & _ & _ & _ & Hpath).
  destruct (start_server_effects _ _ _ _ _ _ _ _ _ Hrun)
    as (added' & Htrace & Hflag & Heff).
  split; [|split; [|split; [|exact Hflag]]].
  - destruct Heff as [(-> & _) | [(-> & _) | (-> & _)]]; auto.
  - split.
    + intros ->.
      destruct Hpath as [(_ & Hr & _) | [(_ & Hr & _) | [(_ & Hr & _)
        | [(_ & Hr & _) | (Hnone & _)]]]]; try discriminate Hr.
      exact Hnone.
    + intros Hnone.
      destruct Hpath as [(Hf & _) | [(Hf & _) | [(Hf & _)
        | [(Hf & _) | (_ & Hr & _)]]]];
        try (rewrite Hnone in Hf; discriminate Hf).
      exact Hr.
  - intros Hr. rewrite Htrace, advertised_app.
    destruct Heff as [(_ & -> & _) | [(_ & -> & _) | (H0 & _)]];
      [apply app_nil_r | apply app_nil_r | contradiction].
Qed.

Lemma start_succeeds_iff_no_step_fails_witness :
  let rw := start_server env_discovery_fails DEFAULT_HW_ADDRESS DEFAULT_NAME
              true AUDIO_DEVICE_HDMI false initial_world in
  (fst rw = 0 <-> forall f, fails_at env_discovery_fails AUDIO_DEVICE_HDMI f = false)
  /\ (fst rw <> 0 -> advertised (trace (snd rw)) = advertised (trace initial_world)).
Proof.
  intros rw.
  destruct (start_succeeds_iff_no_step_fails env_discovery_fails DEFAULT_HW_ADDRESS
              DEFAULT_NAME true AUDIO_DEVICE_HDMI false initial_world (snd rw) (fst rw))
    as (_ & Hiff & Hadv & _).
  - vm_compute. reflexivity.
  - split; [exact Hiff | exact Hadv].
Defined.

(** X10.  What a failed start leaves running.  When the engine or a
    renderer cannot be constructed, nothing has been started and the
    advertiser variable is untouched.  When the advertiser reports an
    error, the video renderer, the audio renderer if there is one, and the
    engine have all been started, in this order, none of them is stopped
    or destroyed, and the advertiser variable holds what the failed
    initialisation returned. *)
Theorem failed_start_leaves_started :
  forall (E : env) (hw_addr : list char) (name : string)
         (show_background : bool) (dev : audio_device_t) (low_latency : bool)
         (w w' : world) (r : Z),
    start_server E hw_addr name show_background dev low_latency w = (r, w') ->
    r <> 0 ->
    filter is_teardown (trace w') = filter is_teardown (trace w)
    /\ (r = -1 ->
        filter is_start (trace w') = filter is_start (trace w)
        /\ dnssd (vars w') = dnssd (vars w))
    /\ (r = -2 ->
        filter is_start (trace w')
        = (filter is_start (trace w) ++ start_calls (vars w'))%list
        /\ dnssd (vars w') = dnssd_init_result E).
Proof.
  intros E hw_addr name bg dev ll w w' r Hrun Hfail.
  destruct (start_server_paths _ _ _ _ _ _ _ _ _ Hrun)
    as (added0 & Htrace0 & Hquiet & _).
  destruct (start_server_effects _ _ _ _ _ _ _ _ _ Hrun)
    as (added & Htrace & _ & Heff).
  split; [rewrite Htrace0, filter_app, Hquiet; apply app_nil_r|].
  rewrite Htrace, filter_app.
  destruct Heff as [(-> & _ & Hs & Hd) | [(-> & _ & Hs & Hd) | (-> & _)]];
    [| | contradiction].
  - split; [intros _ | intros H; discriminate H].
    rewrite Hs. split; [apply app_nil_r | exact Hd].
  - split; [intros H; discriminate H | intros _].
    rewrite Hs. split; [reflexivity | exact Hd].
Qed.

Lemma failed_start_leaves_started_witness :
  let w' := snd (start_server env_discovery_fails DEFAULT_HW_ADDRESS DEFAULT_NAME
                   true AUDIO_DEVICE_HDMI false initial_world) in
  filter is_teardown (trace w') = []
  /\ filter is_start (trace w')
     = [ev_video_renderer_start 3; ev_audio_renderer_start 4; ev_raop_start 1].
Proof.
  intros w'.
  destruct (failed_start_leaves_started env_discovery_fails DEFAULT_HW_ADDRESS
              DEFAULT_NAME true AUDIO_DEVICE_HDMI false initial_world w' (-2))
    as (Hq & _ & Hs).
  - vm_compute. reflexivity.
  - lia.
  - split; [exact Hq | exact (proj1 (Hs eq_refl))].
Defined.

(** The calls and the globals of a successful start. *)
Lemma start_server_success E hw_addr name bg dev ll w w' :
  audio_renderer (vars w) = NULL ->
  start_server E hw_addr name bg dev ll w = (0, w') ->
  trace w' = (trace w ++ success_calls E hw_addr name bg dev ll)%list
  /\ vars w'
     = mkGlobals (running (vars w)) (dnssd_init_result E) (raop_init_result E)
         (video_renderer_init_result E)
         (if audio_device_eqb dev AUDIO_DEVICE_NONE then NULL
          else audio_renderer_init_result E).
Proof.
  destruct w as [[run d r0 v a] t]. cbn [vars audio_renderer]. intros ->.
  unfold success_calls. run_server.
  change (is_null NULL) with true.
  split_tests.
  all: prune_paths.
  all: intros Hrun; apply pair_equal_spec in Hrun; destruct Hrun as [Hr Hw];
    try discriminate Hr; try discriminate; subst w';
    cbn [vars trace raop video_renderer audio_renderer dnssd running].
  all: split; [|reflexivity];
    repeat rewrite <- app_assoc; cbn [app]; reflexivity.
Qed.

(** X11.  The calls of a successful start, in order.  The engine is
    created first with the three media callbacks; the renderers' logger is
    created; the video renderer is constructed, then the audio renderer,
    which is given the video renderer's handle and the same logger, unless
    the device is NONE; the video renderer is started, then the audio
    renderer, then the engine; the port the engine chose is written back to
    it; the advertiser is initialised with the name, its length, the
    address and its length, handed to the engine, and the two services are
    registered last, the companion one on the port plus one as a 16-bit
    port.  Nothing else is called. *)
Theorem successful_start_calls :
  forall (E : env) (hw_addr : list char) (name : string)
         (show_background : bool) (dev : audio_device_t) (low_latency : bool)
         (w w' : world),
    audio_renderer (vars w) = NULL ->
    start_server E hw_addr name show_background dev low_latency w = (0, w') ->
    trace w'
    = (trace w ++ success_calls E hw_addr name show_background dev low_latency)%list
    /\ raop (vars w') = raop_init_result E
    /\ video_renderer (vars w') = video_renderer_init_result E
    /\ dnssd (vars w') = dnssd_init_result E
    /\ raop (vars w') <> NULL
    /\ video_renderer (vars w') <> NULL.
Proof.
  intros E hw_addr name bg dev ll w w' Hinit Hrun.
  destruct (start_server_success _ _ _ _ _ _ _ _ Hinit Hrun) as [Htrace Hvars].
  split; [exact Htrace|]. rewrite Hvars. cbn [raop video_renderer dnssd].
  repeat split.
  - destruct (start_server_paths _ _ _ _ _ _ _ _ _ Hrun)
      as (_ & _ & _ & _ & [(_ & Hr & _) | [(_ & Hr & _) | [(_ & Hr & _)
        | [(_ & Hr & _) | (Hnone & _)]]]]); try discriminate Hr.
    specialize (Hnone EngineInitFailed). cbn [fails_at] in Hnone.
    apply is_null_false. exact Hnone.
  - destruct (start_server_paths _ _ _ _ _ _ _ _ _ Hrun)
      as (_ & _ & _ & _ & [(_ & Hr & _) | [(_ & Hr & _) | [(_ & Hr & _)
        | [(_ & Hr & _) | (Hnone & _)]]]]); try discriminate Hr.
    pose proof (Hnone EngineInitFailed) as He.
    pose proof (Hnone VideoRendererInitFailed) as Hv.
    cbn [fails_at] in He, Hv. rewrite He in Hv. cbn [negb andb] in Hv.
    apply is_null_false. exact Hv.
Qed.

Lemma successful_start_calls_witness :
  filter is_start (trace world_running)
  = [ev_video_renderer_start 3; ev_audio_renderer_start 4; ev_raop_start 1]
  /\ raop (vars world_running) <> NULL.
Proof.
  destruct (successful_start_calls (env_ok 7000) DEFAULT_HW_ADDRESS DEFAULT_NAME
              true AUDIO_DEVICE_HDMI false initial_world world_running)
    as (Htrace & _ & _ & _ & Hr & _).
  - reflexivity.
  - vm_compute. reflexivity.
  - split; [rewrite Htrace; reflexivity | exact Hr].
Defined.

(** X12.  The callbacks during a session.  After a successful start, a
    video frame is always passed on to the video renderer that was
    constructed, with its fields unchanged.  An audio frame and a volume
    are passed on to the audio renderer when the device is not NONE, and
    are dropped without any call when it is NONE. *)
Theorem callbacks_after_start :
  forall (E : env) (hw_addr : list char) (name : string)
         (show_background : bool) (dev : audio_device_t) (low_latency : bool)
         (w w' : world) (ntp : ptr) (audio : aac_decode_struct)
         (video : h264_decode_struct) (volume : Z),
    audio_renderer (vars w) = NULL ->
    start_server E hw_addr name show_background dev low_latency w = (0, w') ->
    video_process (vars w') ntp video
    = [rc_video_renderer_render_buffer (video_renderer_init_result E) ntp
         (h264_data video) (h264_data_len video) (h264_pts video)
         (h264_frame_type video)]
    /\ (dev = AUDIO_DEVICE_NONE ->
        audio_process (vars w') ntp audio = []
        /\ audio_set_volume (vars w') volume = [])
    /\ (dev <> AUDIO_DEVICE_NONE ->
        audio_process (vars w') ntp audio
        = [rc_audio_renderer_render_buffer (audio_renderer_init_result E) ntp
             (aac_data audio) (aac_data_len audio) (aac_pts audio)]
        /\ audio_set_volume (vars w') volume
           = [rc_audio_renderer_set_volume (audio_renderer_init_result E) volume]).
Proof.
  intros E hw_addr name bg dev ll w w' ntp audio video volume Hinit Hrun.
  destruct (start_server_success _ _ _ _ _ _ _ _ Hinit Hrun) as [_ Hvars].
  unfold video_process, audio_process, audio_set_volume.
  rewrite Hvars. cbn [video_renderer audio_renderer].
  split; [reflexivity|]. split; intros Hdev.
  - subst dev. split; reflexivity.
  - apply audio_device_eqb_neq in Hdev. rewrite Hdev.
    destruct (start_server_paths _ _ _ _ _ _ _ _ _ Hrun)
      as (_ & _ & _ & _ & [(_ & Hr & _) | [(_ & Hr & _) | [(_ & Hr & _)
        | [(_ & Hr & _) | (Hnone & _)]]]]); try discriminate Hr.
    pose proof (Hnone EngineInitFailed) as He.
    pose proof (Hnone VideoRendererInitFailed) as Hv.
    pose proof (Hnone AudioRendererInitFailed) as Ha.
    cbn [fails_at] in He, Hv, Ha. rewrite He, Hdev in *. cbn [negb andb] in Hv, Ha.
    rewrite Hv in Ha. cbn [negb andb] in Ha. rewrite Ha. split; reflexivity.
Qed.

Lemma callbacks_after_start_witness :
  video_process (vars world_running) 9 (mkH264 10 11 12 13)
  = [rc_video_renderer_render_buffer 3 9 10 11 12 13]
  /\ audio_process (vars world_running) 9 (mkAac 10 11 12)
     = [rc_audio_renderer_render_buffer 4 9 10 11 12].
Proof.
  destruct (callbacks_after_start (env_ok 7000) DEFAULT_HW_ADDRESS DEFAULT_NAME
              true AUDIO_DEVICE_HDMI false initial_world world_running
              9 (mkAac 10 11 12) (mkH264 10 11 12 13) 0)
    as (Hv & _ & Ha).
  - reflexivity.
  - vm_compute. reflexivity.
  - split; [exact Hv | apply Ha; discriminate].
Defined.

(** X13.  [stop_server] does not clear the handle variables.  After it
    has run, the variables still hold the handles it destroyed, so a
    callback that arrives later does what it did before (an audio frame is
    still passed to the destroyed audio renderer), and a second
    [stop_server] repeats the same five calls on the same handles. *)
Theorem stop_server_keeps_handles :
  forall (w : world) (ntp : ptr) (audio : aac_decode_struct)
         (video : h264_decode_struct) (volume : Z),
    let w1 := snd (stop_server w) in
    vars w1 = vars w
    /\ audio_process (vars w1) ntp audio = audio_process (vars w) ntp audio
    /\ video_process (vars w1) ntp video = video_process (vars w) ntp video
    /\ audio_set_volume (vars w1) volume = audio_set_volume (vars w) volume
    /\ trace (snd (stop_server w1))
       = (trace w ++ teardown_calls (vars w) ++ teardown_calls (vars w))%list.
Proof.
  intros w ntp audio video volume w1. subst w1.
  rewrite (stop_server_calls w). cbn [snd].
  rewrite stop_server_calls. cbn [snd vars trace].
  repeat split. unfold teardown_calls. rewrite <- app_assoc. reflexivity.
Qed.

(** X14.  [log_callback] logs a message of the engine or of a renderer
    once, at the severity that matches its level: debug, warning, info and
    error map to the debug, warning, info and error log functions.  The
    text is passed as the argument of the fixed format "%s", never as the
    format.  A level that is none of these four is dropped without any
    call. *)
Theorem log_callback_maps_levels :
  forall (level_value : logger_level -> Z) (msg : string),
    (forall l1 l2, level_value l1 = level_value l2 -> l1 = l2) ->
    (forall l,
        log_callback level_value (level_value l) msg
        = [rc_log (severity_of l) "%s" msg])
    /\ (forall level,
           (forall l, level <> level_value l) ->
           log_callback level_value level msg = []).
Proof.
  intros level_value msg Hinj. split.
  - intros l. unfold log_callback.
    destruct l; rewrite ?Z.eqb_refl;
      repeat match goal with
             | |- context [level_value ?a =? level_value ?b] =>
                 destruct (Z.eqb_spec (level_value a) (level_value b)) as [He | _];
                 [apply Hinj in He; discriminate He|]
             end;
      reflexivity.
  - intros level Hother. unfold log_callback.
    repeat match goal with
           | |- context [level =? level_value ?a] =>
               destruct (Z.eqb_spec level (level_value a)) as [He | _];
               [exfalso; exact (Hother a He)|]
           end.
    reflexivity.
Qed.

Lemma log_callback_maps_levels_witness :
  log_callback syslog_level 4 "connection closed" = [rc_log LOGW "%s" "connection closed"]
  /\ log_callback syslog_level 5 "notice" = [].
Proof.
  destruct (log_callback_maps_levels syslog_level "connection closed") as [Hl _].
  - intros [] []; simpl; intros H; solve [reflexivity | discriminate H].
  - destruct (log_callback_maps_levels syslog_level "notice") as [_ Hd].
    + intros [] []; simpl; intros H; solve [reflexivity | discriminate H].
    + split; [exact (Hl LOGGER_WARNING)|].
      apply Hd. intros []; discriminate.
Defined.

(** ** The life of the process *)

Lemma signal_handler_when_stopped sig w :
  running (vars w) = false -> signal_handler sig w = w.
Proof.
  destruct w as [[run d r v a] t]. cbn [vars running]. intros ->.
  unfold signal_handler, exec_void.
  destruct ((sig =? SIGINT) || (sig =? SIGTERM)); reflexivity.
Qed.

Lemma signals_when_stopped E sigs pc0 w :
  running (vars w) = false ->
  forallb survives sigs = true ->
  run E (map Signal sigs) (mkProcess pc0 w) = mkProcess pc0 w.
Proof.
  intros Hoff. induction sigs as [|s sigs IH]; intros Hsurv; [reflexivity|].
  cbn [forallb] in Hsurv. apply andb_prop in Hsurv. destruct Hsurv as [Hs Hsigs].
  cbn [map run perform]. unfold deliver. cbn [at_pc now].
  rewrite (signal_handler_when_stopped s w Hoff).
  unfold survives in Hs.
  destruct pc0; destruct (disposition_of s); try discriminate Hs; exact (IH Hsigs).
Qed.

Lemma run_app E s1 s2 p : run E (s1 ++ s2)%list p = run E s2 (run E s1 p).
Proof.
  revert p. induction s1 as [|a s1 IH]; intros p; [reflexivity|].
  cbn [app run]. apply IH.
Qed.

(** X15.  A termination signal that arrives before [main] has set
    [running] to true is lost: [SIGINT] and [SIGTERM] (and signals that
    leave the program as it is) delivered before or during
    [start_server], or between its return and the assignment, leave no
    mark, and [main] enters its loop and sleeps as if none had arrived. *)
Theorem early_signal_is_lost :
  forall (E : env) (hw_addr : list char) (o : options) (w w1 : world)
         (sigs1 sigs2 : list Z),
    running (vars w) = false ->
    forallb survives sigs1 = true ->
    forallb survives sigs2 = true ->
    start_server E hw_addr (server_name o) (show_background o)
      (audio_device o) (low_latency o) w = (0, w1) ->
    let q := run E (map Signal sigs1 ++ Tick :: map Signal sigs2 ++ [Tick; Tick])%list
               (mkProcess (at_start_server hw_addr o) w) in
    at_pc q = at_sleep
    /\ running (vars (now q)) = true
    /\ trace (now q) = trace w1
    /\ handles (vars (now q)) = handles (vars w1).
Proof.
  intros E hw_addr o w w1 sigs1 sigs2 Hoff Hs1 Hs2 Hstart q.
  assert (Hoff1 : running (vars w1) = false).
  { destruct (start_server_effects _ _ _ _ _ _ _ _ _ Hstart) as (_ & _ & Hflag & _).
    congruence. }
  assert (Hq : q = mkProcess at_sleep
                     (mkWorld (set_running true (vars w1)) (trace w1))).
  { subst q.
    rewrite run_app, (signals_when_stopped E sigs1 _ w Hoff Hs1).
    cbn [run perform]. unfold main_step at 1. cbn [at_pc now].
    rewrite Hstart. cbn [Z.eqb negb].
    rewrite run_app, (signals_when_stopped E sigs2 _ w1 Hoff1 Hs2).
    reflexivity. }
  rewrite Hq. destruct w1 as [[run1 d r v a] t]. repeat split.
Qed.

Lemma early_signal_is_lost_witness :
  let q := run (env_ok 7000)
             (map Signal [SIGTERM] ++ Tick :: map Signal [SIGINT; SIGTERM] ++ [Tick; Tick])%list
             (mkProcess (at_start_server DEFAULT_HW_ADDRESS default_options)
                initial_world) in
  at_pc q = at_sleep /\ running (vars (now q)) = true.
Proof.
  intros q.
  destruct (early_signal_is_lost (env_ok 7000) DEFAULT_HW_ADDRESS default_options
              initial_world world_running [SIGTERM] [SIGINT; SIGTERM])
    as (Hpc & Hrun & _).
  - reflexivity.
  - reflexivity.
  - reflexivity.
  - vm_compute. reflexivity.
  - split; [exact Hpc | exact Hrun].
Defined.

(** One step without [SIGINT] and [SIGTERM], from the loop or from a
    process that a signal has ended. *)
Lemma quiet_step E a p :
  is_quiet a = true ->
  (in_run_loop p = true /\ running (vars (now p)) = true) \/ is_killed p = true ->
  ((in_run_loop (perform E a p) = true
    /\ running (vars (now (perform E a p))) = true)
   \/ is_killed (perform E a p) = true)
  /\ vars (now (perform E a p)) = vars (now p)
  /\ filter is_teardown (trace (now (perform E a p)))
     = filter is_teardown (trace (now p))
  /\ advertised (trace (now (perform E a p))) = advertised (trace (now p))
  /\ (is_harmless a = true -> is_killed p = false ->
      is_killed (perform E a p) = false).
Proof.
  intros Ha Hp. destruct p as [pc0 [g t]].
  unfold in_run_loop, is_killed in *. cbn [at_pc now vars trace] in *.
  destruct a as [|sig].
  - cbn [perform]. unfold main_step. cbn [at_pc now vars trace].
    destruct Hp as [[Hloop Hon] | Hk].
    + destruct pc0; try discriminate Hloop.
      * rewrite Hon. cbn [at_pc now vars trace]. repeat split; auto.
      * unfold exec_void, call. cbn [at_pc now vars trace snd].
        rewrite filter_app, advertised_app. cbn [filter is_teardown advertised].
        rewrite !app_nil_r. repeat split; auto.
    + destruct pc0; try discriminate Hk. cbn [at_pc now vars trace].
      repeat split; auto.
  - cbn [perform is_quiet is_harmless] in *. apply negb_true_iff in Ha.
    pose proof (other_signal_not_handled sig Ha) as Hnh.
    unfold deliver. cbn [at_pc now].
    destruct Hp as [[Hloop Hon] | Hk].
    + destruct pc0; try discriminate Hloop;
        destruct (disposition_of sig); try contradiction;
        cbn [at_pc now vars trace]; repeat split; auto;
        intros H; discriminate H.
    + destruct pc0; try discriminate Hk. cbn [at_pc now vars trace].
      repeat split; auto.
Qed.

(** X16.  The loop is left in an orderly way only by [SIGINT] or
    [SIGTERM].  Under any schedule of statements and of other signals,
    however long, [main] is still in its loop with [running] on, or has
    been ended by the default action of a signal; in both cases the
    globals are unchanged and nothing has been destroyed, unregistered or
    advertised.  When every signal of the schedule is one that leaves the
    program as it is, [main] is still in its loop. *)
Theorem loop_ends_only_by_signal :
  forall (E : env) (sched : list action) (p : process),
    in_run_loop p = true ->
    running (vars (now p)) = true ->
    forallb is_quiet sched = true ->
    let q := run E sched p in
    (in_run_loop q = true \/ is_killed q = true)
    /\ vars (now q) = vars (now p)
    /\ filter is_teardown (trace (now q)) = filter is_teardown (trace (now p))
    /\ advertised (trace (now q)) = advertised (trace (now p))
    /\ (forallb is_harmless sched = true -> in_run_loop q = true).
Proof.
  intros E sched p Hloop Hon Hquiet q. subst q.
  assert (Hgen : forall sched p,
             forallb is_quiet sched = true ->
             (in_run_loop p = true /\ running (vars (now p)) = true)
             \/ is_killed p = true ->
             ((in_run_loop (run E sched p) = true
               /\ running (vars (now (run E sched p))) = true)
              \/ is_killed (run E sched p) = true)
             /\ vars (now (run E sched p)) = vars (now p)
             /\ filter is_teardown (trace (now (run E sched p)))
                = filter is_teardown (trace (now p))
             /\ advertised (trace (now (run E sched p))) = advertised (trace (now p))
             /\ (forallb is_harmless sched = true -> is_killed p = false ->
                 is_killed (run E sched p) = false)).
  { clear. intros sched. induction sched as [|a sched IH]; intros p Hq Hp.
    - cbn [run]. repeat split; auto.
    - cbn [forallb] in Hq. apply andb_prop in Hq. destruct Hq as [Ha Hq].
      destruct (quiet_step E a p Ha Hp) as (Hp1 & Hv1 & Ht1 & Ha1 & Hk1).
      destruct (IH (perform E a p) Hq Hp1) as (Hp2 & Hv2 & Ht2 & Ha2 & Hk2).
      cbn [run]. split; [exact Hp2|].
      split; [congruence|]. split; [congruence|]. split; [congruence|].
      intros Hh Hk. cbn [forallb] in Hh. apply andb_prop in Hh.
      destruct Hh as [Hha Hhs]. apply Hk2; [exact Hhs|]. apply Hk1; assumption. }
  assert (Halive : is_killed p = false).
  { unfold in_run_loop, is_killed in *. destruct (at_pc p); try discriminate Hloop;
      reflexivity. }
  destruct (Hgen sched p Hquiet (or_introl (conj Hloop Hon)))
    as (Hq & Hv & Ht & Ha & Hk).
  split; [destruct Hq as [[Hl _] | Hd]; [left; exact Hl | right; exact Hd]|].
  split; [exact Hv|]. split; [exact Ht|]. split; [exact Ha|].
  intros Hh. specialize (Hk Hh Halive).
  destruct Hq as [[Hl _] | Hd]; [exact Hl | congruence].
Qed.

Lemma loop_ends_only_by_signal_witness :
  let p := mkProcess at_loop_test
             (mkWorld (set_running true (vars world_running)) (trace world_running)) in
  (in_run_loop (run (env_ok 7000) [Tick; Signal 28; Tick; Tick; Signal 17; Tick] p) = true
   /\ filter is_teardown
        (trace (now (run (env_ok 7000) [Tick; Signal 28; Tick; Tick; Signal 17; Tick] p)))
      = [])
  /\ (is_killed (run (env_ok 7000) [Tick; Signal 1; Tick] p) = true
      /\ filter is_teardown (trace (now (run (env_ok 7000) [Tick; Signal 1; Tick] p)))
         = []).
Proof.
  intros p. split.
  - destruct (loop_ends_only_by_signal (env_ok 7000)
                [Tick; Signal 28; Tick; Tick; Signal 17; Tick] p)
      as (_ & _ & Ht & _ & Hl).
    + reflexivity.
    + reflexivity.
    + reflexivity.
    + split; [apply Hl; reflexivity | exact Ht].
  - destruct (loop_ends_only_by_signal (env_ok 7000) [Tick; Signal 1; Tick] p)
      as (_ & _ & Ht & _).
    + reflexivity.
    + reflexivity.
    + reflexivity.
    + split; [reflexivity | exact Ht].
Defined.






(** X18.  A malformed address file stops the process before anything is
    started.  When the arguments parse to options and [find_mac] reads a
    word on which some conversion fails, [main] ends in the exception of
    [std::stol] before [start_server] is called; when every conversion
    succeeds [main] goes on to call [start_server] in the initial world
    with the parsed options and an address of one byte per three
    characters of the word, whatever that number is. *)
Theorem startup_needs_wellformed_address :
  forall (long_bits : Z) (argv : list string) (fs : netfs) (o : options),
    parse_args argv = Returns (Parsed o) ->
    find_mac fs <> EmptyString ->
    (all_convert long_bits (find_mac fs) = false ->
     exists e, main_startup long_bits argv fs = Throws e)
    /\ (all_convert long_bits (find_mac fs) = true ->
        exists addr,
          main_startup long_bits argv fs
          = Returns (mkProcess (at_start_server addr o) initial_world)
          /\ List.length addr = ceil_div3 (String.length (find_mac fs))).
Proof.
  intros long_bits argv fs o Hparse Hne.
  unfold main_startup, main_entry. rewrite Hparse. cbn [obind].
  unfold resolve_hw_addr.
  destruct (String.eqb_spec (find_mac fs) "") as [He | _]; [contradiction|].
  unfold parse_hw_addr, all_convert.
  assert (H0 : ceil_div3 (String.length (find_mac fs))
               = ceil_div3 (String.length (find_mac fs) - 0))
    by (rewrite Nat.sub_0_r; reflexivity).
  rewrite H0.
  split; intros Hall.
  - destruct (parse_hw_addr_loop_throws long_bits (find_mac fs)
                (S (String.length (find_mac fs))) 0%nat []) as (e & He);
      [lia | exact Hall |].
    exists e. rewrite He. reflexivity.
  - destruct (parse_hw_addr_loop_returns long_bits (find_mac fs)
                (S (String.length (find_mac fs))) 0%nat []) as (addr & Ha & Hlen);
      [lia | exact Hall |].
    exists addr. rewrite Ha. cbn [obind]. split; [reflexivity|].
    exact Hlen.
Qed.

Lemma startup_needs_wellformed_address_witness :
  (exists e,
      main_startup 32 ["rpiplay"; "-b"] (mkNetfs (Some "b8:27:eb:xx:02:03") None)
      = Throws e)
  /\ (exists addr,
         main_startup 32 ["rpiplay"; "-b"] (mkNetfs None (Some "b8:27:eb"))
         = Returns (mkProcess
                      (at_start_server addr (set_show_background false default_options))
                      initial_world)
         /\ List.length addr = 3%nat).
Proof.
  split.
  - apply (startup_needs_wellformed_address 32 ["rpiplay"; "-b"]
             (mkNetfs (Some "b8:27:eb:xx:02:03") None)
             (set_show_background false default_options)).
    + reflexivity.
    + discriminate.
    + vm_compute. reflexivity.
  - apply (startup_needs_wellformed_address 32 ["rpiplay"; "-b"]
             (mkNetfs None (Some "b8:27:eb"))
             (set_show_background false default_options)).
    + reflexivity.
    + discriminate.
    + vm_compute. reflexivity.
Defined.
